(** * mathlib: a shallow embedding of samples/source/library/mathlib.c

    The library keeps two process-wide variables, [g_random_seed] and
    [g_call_count]; every exported function is embedded as a computation
    that threads this state.  C [int] is a signed 32-bit integer and
    [unsigned int] an unsigned 32-bit one; both are carried as [Z] and every
    arithmetic result is reduced explicitly ([wrap32], [wrapu32], [wrap64]).
    Signed overflow is undefined in ISO C: the embedding fixes the
    two's-complement wrap-around of the machine instruction, and the
    theorems that depend on that choice say so.  [double] is the kernel's
    binary64 float. *)

From Stdlib Require Import String ZArith List Lia Bool.
From Stdlib Require Znumtheory.
From Stdlib Require Import Floats.PrimFloat Numbers.Cyclic.Int63.Uint63.
From Stdlib Require Import Floats.SpecFloat Floats.FloatOps Floats.FloatAxioms.
Import ListNotations.

Local Open Scope Z_scope.

(** ** Machine integers *)

Module CInt.

Definition INT_MAX : Z := 2147483647.
Definition INT_MIN : Z := -2147483648.

(** Reduction of a mathematical integer to [int] (two's complement). *)
Definition wrap32 (z : Z) : Z := (z + 2147483648) mod 4294967296 - 2147483648.

(** Reduction to [unsigned int]. *)
Definition wrapu32 (z : Z) : Z := z mod 4294967296.

(** Reduction to [long long]. *)
Definition wrap64 (z : Z) : Z :=
  (z + 9223372036854775808) mod 18446744073709551616 - 9223372036854775808.

Definition in_int32 (z : Z) : Prop := INT_MIN <= z <= INT_MAX.
Definition in_uint32 (z : Z) : Prop := 0 <= z < 4294967296.

(** [abs] of <stdlib.h> on an [int]. *)
Definition c_abs (x : Z) : Z := wrap32 (Z.abs x).

(** [/] and [%] of C truncate towards zero. *)
Definition c_div (a b : Z) : Z := wrap32 (Z.quot a b).
Definition c_mod (a b : Z) : Z := Z.rem a b.

(** Conversion [(double) n] of an [int]. *)
Definition double_of_int (z : Z) : float :=
  if z <? 0 then PrimFloat.opp (PrimFloat.of_uint63 (Uint63.of_Z (- z)))
  else PrimFloat.of_uint63 (Uint63.of_Z z).

End CInt.

Export CInt.

(** ** Library state and the monad of library calls *)

Record LibState : Set := mkLibState {
  g_random_seed : Z;   (* static unsigned int g_random_seed *)
  g_call_count : Z     (* static int g_call_count *)
}.

(** The constructor hook [mathlib_init] (and [DllMain] on attach). *)
Definition mathlib_init : LibState := mkLibState 12345 0.

(** A call either yields a value and the next state, or has no defined
    outcome: a read outside the caller's buffer, or a loop that has not
    finished within the fuel it was given. *)
Definition M (A : Type) : Type := LibState -> option (A * LibState).

Definition ret {A} (a : A) : M A := fun s => Some (a, s).

Definition bind {A B} (m : M A) (k : A -> M B) : M B :=
  fun s => match m s with
           | Some (a, s') => k a s'
           | None => None
           end.

Definition lift_opt {A} (o : option A) : M A :=
  fun s => match o with Some a => Some (a, s) | None => None end.

Notation "x <- m ;; k" := (bind m (fun x => k))
  (at level 61, m at next level, right associativity).
Notation "m ;; k" := (bind m (fun _ => k))
  (at level 61, right associativity).

(** [g_call_count++] *)
Definition count_call : M unit :=
  fun s => Some (tt, mkLibState (g_random_seed s) (wrap32 (g_call_count s + 1))).

Definition get_seed : M Z := fun s => Some (g_random_seed s, s).
Definition put_seed (v : Z) : M unit :=
  fun s => Some (tt, mkLibState v (g_call_count s)).
Definition get_count : M Z := fun s => Some (g_call_count s, s).

(** ** Loops *)

Inductive step (S R : Type) : Type :=
| Continue (s : S)
| Return (r : R).
Arguments Continue {S R} s.
Arguments Return {S R} r.

(** [loop fuel body s] runs [body] from [s] until it returns; [None] when the
    body has no defined outcome or the fuel is used up. *)
Fixpoint loop {S R} (fuel : nat) (body : S -> option (step S R)) (s : S) : option R :=
  match fuel with
  | O => None
  | Datatypes.S fuel' =>
      match body s with
      | None => None
      | Some (Return r) => Some r
      | Some (Continue s') => loop fuel' body s'
      end
  end.

(** ** Version functions *)

Definition VERSION_MAJOR : Z := 1.
Definition VERSION_MINOR : Z := 0.
Definition VERSION_STRING : string := "1.0.0".

Definition mathlib_version : M string :=
  count_call ;; ret VERSION_STRING.

Definition mathlib_version_major : M Z := ret VERSION_MAJOR.

Definition mathlib_version_minor : M Z := ret VERSION_MINOR.

(** ** Basic math operations *)

Definition mathlib_add (a b : Z) : M Z :=
  count_call ;;
  if ((b >? 0) && (a >? wrap32 (INT_MAX - b)))
     || ((b <? 0) && (a <? wrap32 (INT_MIN - b)))
  then ret 0
  else ret (wrap32 (a + b)).

Definition mathlib_subtract (a b : Z) : M Z :=
  count_call ;;
  if ((b <? 0) && (a >? wrap32 (INT_MAX + b)))
     || ((b >? 0) && (a <? wrap32 (INT_MIN + b)))
  then ret 0
  else ret (wrap32 (a - b)).

Definition mathlib_multiply (a b : Z) : M Z :=
  count_call ;;
  if negb (a =? 0) && (c_abs b >? c_div INT_MAX (c_abs a))
  then ret 0
  else ret (wrap32 (a * b)).

Definition mathlib_divide (a b : float) : M float :=
  count_call ;;
  if PrimFloat.eqb b 0%float
  then ret 0%float
  else ret (PrimFloat.div a b).

(** ** Advanced operations *)

(** One turn of [for (int i = 2; i <= n && i <= 20; i++) result *= i;]
    on the pair [(i, result)]; [result] is a [long long]. *)
Definition factorial_body (n : Z) (st : Z * Z) : option (step (Z * Z) Z) :=
  let '(i, result) := st in
  if (i <=? n) && (i <=? 20)
  then Some (Continue (wrap32 (i + 1), wrap64 (result * i)))
  else Some (Return result).

Definition mathlib_factorial (fuel : nat) (n : Z) : M Z :=
  count_call ;;
  if n <? 0 then ret (-1)
  else if (n =? 0) || (n =? 1) then ret 1
  else lift_opt (loop fuel (factorial_body n) (2, 1)).

(** One turn of [for (int i = 2; i <= n; i++) { temp = a + b; a = b; b = temp; }]
    on [(i, a, b)]. *)
Definition fibonacci_body (n : Z) (st : Z * Z * Z) : option (step (Z * Z * Z) Z) :=
  let '(i, a, b) := st in
  if i <=? n
  then Some (Continue (wrap32 (i + 1), b, wrap32 (a + b)))
  else Some (Return b).

Definition mathlib_fibonacci (fuel : nat) (n : Z) : M Z :=
  count_call ;;
  if n <=? 0 then ret 0
  else if n =? 1 then ret 1
  else lift_opt (loop fuel (fibonacci_body n) (2, 0, 1)).

(** One turn of [while (b != 0) { temp = b; b = a % b; a = temp; }]. *)
Definition gcd_body (st : Z * Z) : option (step (Z * Z) Z) :=
  let '(a, b) := st in
  if negb (b =? 0)
  then Some (Continue (b, c_mod a b))
  else Some (Return a).

Definition mathlib_gcd (fuel : nat) (a b : Z) : M Z :=
  count_call ;;
  lift_opt (loop fuel gcd_body (c_abs a, c_abs b)).

(** One turn of
    [for (int i = 5; i * i <= n; i += 6)
         if (n % i == 0 || n % (i + 2) == 0) return 0;]
    the loop falls through to [return 1]. *)
Definition is_prime_body (n : Z) (i : Z) : option (step Z Z) :=
  if wrap32 (i * i) <=? n
  then if (c_mod n i =? 0) || (c_mod n (wrap32 (i + 2)) =? 0)
       then Some (Return 0)
       else Some (Continue (wrap32 (i + 6)))
  else Some (Return 1).

Definition mathlib_is_prime (fuel : nat) (n : Z) : M Z :=
  count_call ;;
  if n <=? 1 then ret 0
  else if n <=? 3 then ret 1
  else if (c_mod n 2 =? 0) || (c_mod n 3 =? 0) then ret 0
  else lift_opt (loop fuel (is_prime_body n) 5).

(** ** Array operations *)

(** A [const int*] argument: [None] is the null pointer, [Some l] points to
    the first of the [length l] ints the caller owns. *)
Definition int_array : Set := option (list Z).

(** [array[i]]; no outcome outside the caller's buffer. *)
Definition array_get (l : list Z) (i : Z) : option Z :=
  if i <? 0 then None else nth_error l (Z.to_nat i).

(** [!array || size <= 0] *)
Definition no_data (array : int_array) (size : Z) : bool :=
  match array with
  | None => true
  | Some _ => size <=? 0
  end.

Definition elements (array : int_array) : list Z :=
  match array with Some l => l | None => [] end.

(** One turn of [for (int i = 0; i < size; i++) sum += array[i];]. *)
Definition array_sum_body (l : list Z) (size : Z) (st : Z * Z) : option (step (Z * Z) Z) :=
  let '(i, sum) := st in
  if i <? size
  then match array_get l i with
       | Some x => Some (Continue (wrap32 (i + 1), wrap32 (sum + x)))
       | None => None
       end
  else Some (Return sum).

Definition mathlib_array_sum (fuel : nat) (array : int_array) (size : Z) : M Z :=
  count_call ;;
  if no_data array size then ret 0
  else lift_opt (loop fuel (array_sum_body (elements array) size) (0, 0)).

Definition mathlib_array_average (fuel : nat) (array : int_array) (size : Z) : M float :=
  count_call ;;
  if no_data array size then ret 0%float
  else sum <- mathlib_array_sum fuel array size ;;
       ret (PrimFloat.div (double_of_int sum) (double_of_int size)).

(** One turn of
    [for (int i = 1; i < size; i++) if (array[i] > max) max = array[i];]. *)
Definition array_max_body (l : list Z) (size : Z) (st : Z * Z) : option (step (Z * Z) Z) :=
  let '(i, max) := st in
  if i <? size
  then match array_get l i with
       | Some x => Some (Continue (wrap32 (i + 1), if x >? max then x else max))
       | None => None
       end
  else Some (Return max).

Definition mathlib_array_max (fuel : nat) (array : int_array) (size : Z) : M Z :=
  count_call ;;
  if no_data array size then ret INT_MIN
  else max <- lift_opt (array_get (elements array) 0) ;;
       lift_opt (loop fuel (array_max_body (elements array) size) (1, max)).

Definition array_min_body (l : list Z) (size : Z) (st : Z * Z) : option (step (Z * Z) Z) :=
  let '(i, min) := st in
  if i <? size
  then match array_get l i with
       | Some x => Some (Continue (wrap32 (i + 1), if x <? min then x else min))
       | None => None
       end
  else Some (Return min).

Definition mathlib_array_min (fuel : nat) (array : int_array) (size : Z) : M Z :=
  count_call ;;
  if no_data array size then ret INT_MAX
  else min <- lift_opt (array_get (elements array) 0) ;;
       lift_opt (loop fuel (array_min_body (elements array) size) (1, min)).

(** ** Callback *)

(** The type [mathlib_callback], a pointer to a function from [int] to
    [int]: caller code, which runs in the same process and may itself call
    into the library. *)
Definition mathlib_callback : Type := Z -> M Z.

Definition mathlib_apply_operation (value : Z) (operation : option mathlib_callback) : M Z :=
  count_call ;;
  match operation with
  | None => ret value
  | Some f => f value
  end.

(** ** Global state functions *)

(** Modelled from the spec: [RAND_MAX] is the macro of the platform's
    <stdlib.h>, which is not part of the repository; the specification pins
    it to 2^31 - 1. *)
Definition RAND_MAX : Z := 2147483647.

Definition mathlib_set_global_seed (seed : Z) : M unit :=
  count_call ;; put_seed seed.

Definition mathlib_get_global_seed : M Z :=
  count_call ;; get_seed.

Definition mathlib_random : M Z :=
  count_call ;;
  seed <- get_seed ;;
  put_seed (Z.land (wrapu32 (wrapu32 (seed * 1103515245) + 12345)) 2147483647) ;;
  seed' <- get_seed ;;
  ret (wrap32 (seed' mod RAND_MAX)).

(** ** Point distance *)

Record MathPoint : Set := mkMathPoint { x : float; y : float }.

Definition mathlib_point_distance (p1 p2 : option MathPoint) : M float :=
  count_call ;;
  match p1, p2 with
  | Some q1, Some q2 =>
      let dx := PrimFloat.sub (x q2) (x q1) in
      let dy := PrimFloat.sub (y q2) (y q1) in
      ret (PrimFloat.sqrt (PrimFloat.add (PrimFloat.mul dx dx) (PrimFloat.mul dy dy)))
  | _, _ => ret (-1)%float
  end.

(** ** The reader that is not declared in mathlib.h *)

Definition mathlib_get_call_count : M Z := get_count.

(** ** Calls of the published interface

    [call] lists the functions declared in mathlib.h with their arguments,
    [run] dispatches one of them and [run_all] a sequence, so that
    statements about "every operation" and "any sequence of calls" can
    quantify over them. *)

Inductive value : Type :=
| VInt (z : Z)
| VDouble (d : float)
| VString (s : string)
| VVoid.

Inductive call : Type :=
| CallVersion
| CallVersionMajor
| CallVersionMinor
| CallAdd (a b : Z)
| CallSubtract (a b : Z)
| CallMultiply (a b : Z)
| CallDivide (a b : float)
| CallFactorial (n : Z)
| CallFibonacci (n : Z)
| CallGcd (a b : Z)
| CallIsPrime (n : Z)
| CallArraySum (array : int_array) (size : Z)
| CallArrayAverage (array : int_array) (size : Z)
| CallArrayMax (array : int_array) (size : Z)
| CallArrayMin (array : int_array) (size : Z)
| CallApplyOperation (v : Z) (operation : option mathlib_callback)
| CallSetGlobalSeed (seed : Z)
| CallGetGlobalSeed
| CallRandom
| CallPointDistance (p1 p2 : option MathPoint).

Definition fmap {A B} (f : A -> B) (m : M A) : M B :=
  a <- m ;; ret (f a).

Definition run (fuel : nat) (c : call) : M value :=
  match c with
  | CallVersion => fmap VString mathlib_version
  | CallVersionMajor => fmap VInt mathlib_version_major
  | CallVersionMinor => fmap VInt mathlib_version_minor
  | CallAdd a b => fmap VInt (mathlib_add a b)
  | CallSubtract a b => fmap VInt (mathlib_subtract a b)
  | CallMultiply a b => fmap VInt (mathlib_multiply a b)
  | CallDivide a b => fmap VDouble (mathlib_divide a b)
  | CallFactorial n => fmap VInt (mathlib_factorial fuel n)
  | CallFibonacci n => fmap VInt (mathlib_fibonacci fuel n)
  | CallGcd a b => fmap VInt (mathlib_gcd fuel a b)
  | CallIsPrime n => fmap VInt (mathlib_is_prime fuel n)
  | CallArraySum array size => fmap VInt (mathlib_array_sum fuel array size)
  | CallArrayAverage array size => fmap VDouble (mathlib_array_average fuel array size)
  | CallArrayMax array size => fmap VInt (mathlib_array_max fuel array size)
  | CallArrayMin array size => fmap VInt (mathlib_array_min fuel array size)
  | CallApplyOperation v operation => fmap VInt (mathlib_apply_operation v operation)
  | CallSetGlobalSeed seed => fmap (fun _ => VVoid) (mathlib_set_global_seed seed)
  | CallGetGlobalSeed => fmap VInt mathlib_get_global_seed
  | CallRandom => fmap VInt mathlib_random
  | CallPointDistance p1 p2 => fmap VDouble (mathlib_point_distance p1 p2)
  end.

Fixpoint run_all (fuel : nat) (cs : list call) : M (list value) :=
  match cs with
  | [] => ret []
  | c :: cs' => v <- run fuel c ;; vs <- run_all fuel cs' ;; ret (v :: vs)
  end.

(** [n] consecutive calls of one function, results in call order. *)
Fixpoint repeat_call {A} (n : nat) (m : M A) : M (list A) :=
  match n with
  | O => ret []
  | Datatypes.S n' => a <- m ;; l <- repeat_call n' m ;; ret (a :: l)
  end.

(** The value a call returned and the state it left, when it has an outcome. *)
Definition value_of {A} (o : option (A * LibState)) : option A := option_map fst o.
Definition state_of {A} (o : option (A * LibState)) : option LibState := option_map snd o.

(** What a call adds to [g_call_count]. *)
Definition count_delta (c : call) : Z :=
  match c with
  | CallVersionMajor | CallVersionMinor => 0
  | CallArrayAverage array size => if no_data array size then 1 else 2
  | _ => 1
  end.

Fixpoint count_delta_all (cs : list call) : Z :=
  match cs with
  | [] => 0
  | c :: cs' => count_delta c + count_delta_all cs'
  end.

(** A callback that leaves the library's counter as it found it. *)
Definition keeps_count (f : mathlib_callback) : Prop :=
  forall v s r s', f v s = Some (r, s') -> g_call_count s' = g_call_count s.

Definition keeps_seed (f : mathlib_callback) : Prop :=
  forall v s r s', f v s = Some (r, s') -> g_random_seed s' = g_random_seed s.

(** A callback that returns: it has an outcome in every state. *)
Definition returns (f : mathlib_callback) : Prop :=
  forall v s, f v s <> None.

Definition callback_keeps_count (c : call) : Prop :=
  match c with
  | CallApplyOperation _ (Some f) => keeps_count f
  | _ => True
  end.

(** Calls that do not write [g_random_seed]. *)
Definition leaves_seed (c : call) : Prop :=
  match c with
  | CallSetGlobalSeed _ | CallRandom => False
  | CallApplyOperation _ (Some f) => keeps_seed f
  | _ => True
  end.

(** A pure integer transform used as a callback, such as the test program's
    [square_callback]. *)
Definition pure_callback (f : Z -> Z) : mathlib_callback := fun v => ret (f v).

Definition square_callback : mathlib_callback := pure_callback (fun x => wrap32 (x * x)).

(** ** Reference notions used in the statements *)

(** The product [lo * (lo+1) * ... * hi] as a product over [len] factors. *)
Fixpoint product_from (lo : Z) (len : nat) : Z :=
  match len with
  | O => 1
  | Datatypes.S len' => lo * product_from (lo + 1) len'
  end.

(** The product of the integers [2 .. hi]. *)
Definition product_2_to (hi : Z) : Z := product_from 2 (Z.to_nat (hi - 1)).

(** [m] is the greatest (resp. least) element of [l]. *)
Definition is_max_of (l : list Z) (m : Z) : Prop := In m l /\ forall v, In v l -> v <= m.
Definition is_min_of (l : list Z) (m : Z) : Prop := In m l /\ forall v, In v l -> m <= v.

(** The LCG step of [mathlib_random] as the specification words it. *)
Definition lcg_next (seed : Z) : Z := (seed * 1103515245 + 12345) mod 2147483648.

(** ** Auxiliary definitions *)

(** The state a call leaves once [g_call_count++] has run. *)
Definition counted (s : LibState) : LibState :=
  mkLibState (g_random_seed s) (wrap32 (g_call_count s + 1)).

Definition in_int32b (z : Z) : bool := (INT_MIN <=? z) && (z <=? INT_MAX).

(** The outputs of [n] draws from a given seed, as a function of the seed
    alone. *)
Fixpoint lcg_outputs (seed : Z) (n : nat) : list Z :=
  match n with
  | O => []
  | Datatypes.S n' => lcg_next seed mod RAND_MAX :: lcg_outputs (lcg_next seed) n'
  end.

(** The calls of the test program test_mathlib.c, in its order (its five
    draws shortened to one). *)
Definition test_array : int_array := Some [1; 2; 3; 4; 5; 6; 7; 8; 9; 10].

Definition test_program : list call :=
  [ CallVersion; CallVersionMajor; CallVersionMinor;
    CallAdd 10 5; CallSubtract 10 5; CallMultiply 10 5; CallDivide 10 5;
    CallFactorial 5; CallFibonacci 10; CallGcd 48 18; CallIsPrime 17; CallIsPrime 18;
    CallArraySum test_array 10; CallArrayAverage test_array 10;
    CallArrayMax test_array 10; CallArrayMin test_array 10;
    CallApplyOperation 7 (Some square_callback);
    CallSetGlobalSeed 42; CallGetGlobalSeed; CallRandom;
    CallPointDistance (Some (mkMathPoint 0 0)) (Some (mkMathPoint 3 4)) ].

(** [advance k body s] is the state after [k] turns of [body] from [s], when
    none of them returns. *)
Fixpoint advance {S R} (k : nat) (body : S -> option (step S R)) (s : S) : option S :=
  match k with
  | O => Some s
  | Datatypes.S k' =>
      match body s with
      | Some (Continue s') => advance k' body s'
      | _ => None
      end
  end.

(** Trial division as a reference: no [d] with [lo <= d < lo + len] divides [n]. *)
Fixpoint no_divisor_from (len : nat) (lo n : Z) : bool :=
  match len with
  | O => true
  | Datatypes.S len' => negb (n mod lo =? 0) && no_divisor_from len' (lo + 1) n
  end.

(** What the loop of is_prime has established when it is about to test [i]:
    [i] is 5 modulo 6, nothing below [i] divides [n], and the previous
    candidate passed the test [i * i <= n]. *)
Definition is_prime_inv (n i : Z) : Prop :=
  i mod 6 = 5 /\ 5 <= i /\ (forall d, 1 < d < i -> ~ (d | n)) /\ (i - 6) * (i - 6) <= n.

(** The candidates 5, 11, ..., 46337 whose square is an [int]: 7723 turns. *)
Definition trial_division_turns : nat := Z.to_nat 7723.

(** Turns that take the loop of is_prime from 5 to [INT_MAX - 2]. *)
Definition turns_to_INT_MAX : nat := Z.to_nat 357913940.

(** The caller's buffer holds the [size] elements it announces, and [size]
    is an [int]. *)
Definition in_buffer (array : int_array) (size : Z) : Prop :=
  size <= Z.of_nat (length (elements array)) /\ size <= INT_MAX.

(** Arguments on which a call has a defined outcome: the array covers
    [size] elements, the callback returns, and the loop index of fibonacci
    stays an [int] (at [n = INT_MAX] the test [i <= n] can never fail). *)
Definition well_formed (c : call) : Prop :=
  match c with
  | CallFibonacci n => n < INT_MAX
  | CallIsPrime n => n <= INT_MAX
  | CallArraySum array size | CallArrayAverage array size
  | CallArrayMax array size | CallArrayMin array size =>
      no_data array size = false -> in_buffer array size
  | CallApplyOperation _ (Some f) => returns f
  | _ => True
  end.

(** ** Reference notions for the remaining functions *)

(** The Fibonacci numbers by their recurrence. *)
Fixpoint fib (n : nat) : Z :=
  match n with
  | O => 0
  | Datatypes.S p =>
      match p with
      | O => 1
      | Datatypes.S q => fib p + fib q
      end
  end.

(** Two consecutive Fibonacci numbers at once (linear, for bounds). *)
Fixpoint fib_pair (n : nat) : Z * Z :=
  match n with
  | O => (0, 1)
  | Datatypes.S p => let '(a, b) := fib_pair p in (b, a + b)
  end.

(** The sum of a list of integers. *)
Definition total (l : list Z) : Z := fold_right Z.add 0 l.

(** * Properties *)

(** ** Machine arithmetic *)

Lemma wrap32_id (z : Z) : in_int32 z -> wrap32 z = z.
Proof.
  unfold in_int32, INT_MIN, INT_MAX, wrap32. intros H.
  rewrite Z.mod_small by lia. lia.
Qed.

Lemma wrap32_range (z : Z) : in_int32 (wrap32 z).
Proof.
  unfold in_int32, INT_MIN, INT_MAX, wrap32.
  pose proof (Z.mod_pos_bound (z + 2147483648) 4294967296 eq_refl). lia.
Qed.

Lemma wrap64_id (z : Z) :
  -9223372036854775808 <= z <= 9223372036854775807 -> wrap64 z = z.
Proof.
  unfold wrap64. intros H. rewrite Z.mod_small by lia. lia.
Qed.

Lemma c_abs_id (z : Z) : INT_MIN < z <= INT_MAX -> c_abs z = Z.abs z.
Proof.
  unfold c_abs, INT_MIN, INT_MAX. intros H. apply wrap32_id.
  unfold in_int32, INT_MIN, INT_MAX. lia.
Qed.

(** ** The monad *)

Lemma bind_Some {A B} (m : M A) (k : A -> M B) s b s2 :
  bind m k s = Some (b, s2) <->
  exists a s1, m s = Some (a, s1) /\ k a s1 = Some (b, s2).
Proof.
  unfold bind. split.
  - destruct (m s) as [[a s1]|]; [|discriminate]. intros H. now exists a, s1.
  - intros (a & s1 & -> & H). exact H.
Qed.

Lemma count_call_Some s :
  count_call s = Some (tt, mkLibState (g_random_seed s) (wrap32 (g_call_count s + 1))).
Proof. reflexivity. Qed.

Lemma fmap_Some {A B} (f : A -> B) (m : M A) s b s' :
  fmap f m s = Some (b, s') <-> exists a, m s = Some (a, s') /\ b = f a.
Proof.
  unfold fmap. rewrite bind_Some. split.
  - intros (a & s1 & Hm & Hr). unfold ret in Hr. inversion Hr; subst. now exists a.
  - intros (a & Hm & ->). now exists a, s'.
Qed.

Lemma counted_count s :
  g_call_count s < INT_MAX -> INT_MIN <= g_call_count s ->
  g_call_count (counted s) = g_call_count s + 1.
Proof.
  intros H1 H2. unfold counted; cbn. apply wrap32_id.
  unfold in_int32 in *. unfold INT_MAX, INT_MIN in *. lia.
Qed.

(** ** add and subtract *)

(** Case analysis on the integer comparisons of a goal. *)
Ltac cmp_cases :=
  repeat match goal with
         | |- context [?a >? ?b] => rewrite (Z.gtb_ltb a b)
         | |- context [?a <? ?b] => destruct (Z.ltb_spec a b)
         | |- context [?a <=? ?b] => destruct (Z.leb_spec a b)
         | |- context [?a =? ?b] => destruct (Z.eqb_spec a b)
         end;
  cbn [andb orb negb].

Ltac int_bounds := unfold in_int32, in_uint32, INT_MIN, INT_MAX in *.

Lemma in_int32b_spec (z : Z) : reflect (in_int32 z) (in_int32b z).
Proof.
  unfold in_int32b, in_int32. apply iff_reflect.
  rewrite andb_true_iff, !Z.leb_le. tauto.
Qed.

Lemma add_check (a b : Z) :
  in_int32 a -> in_int32 b ->
  ((b >? 0) && (a >? wrap32 (INT_MAX - b))) || ((b <? 0) && (a <? wrap32 (INT_MIN - b)))
  = negb (in_int32b (a + b)).
Proof.
  intros Ha Hb. unfold in_int32b.
  destruct (Z.compare_spec b 0) as [H0|Hneg|Hpos].
  - subst b. rewrite Z.add_0_r. int_bounds. cbn [Z.gtb Z.ltb Z.compare andb orb].
    cmp_cases; try reflexivity; lia.
  - rewrite (wrap32_id (INT_MIN - b)) by (int_bounds; lia).
    int_bounds. cmp_cases; try reflexivity; lia.
  - rewrite (wrap32_id (INT_MAX - b)) by (int_bounds; lia).
    int_bounds. cmp_cases; try reflexivity; lia.
Qed.

Lemma subtract_check (a b : Z) :
  in_int32 a -> in_int32 b ->
  ((b <? 0) && (a >? wrap32 (INT_MAX + b))) || ((b >? 0) && (a <? wrap32 (INT_MIN + b)))
  = negb (in_int32b (a - b)).
Proof.
  intros Ha Hb. unfold in_int32b.
  destruct (Z.compare_spec b 0) as [H0|Hneg|Hpos].
  - subst b. rewrite Z.sub_0_r. int_bounds. cbn [Z.gtb Z.ltb Z.compare andb orb].
    cmp_cases; try reflexivity; lia.
  - rewrite (wrap32_id (INT_MAX + b)) by (int_bounds; lia).
    int_bounds. cmp_cases; try reflexivity; lia.
  - rewrite (wrap32_id (INT_MIN + b)) by (int_bounds; lia).
    int_bounds. cmp_cases; try reflexivity; lia.
Qed.

Lemma mathlib_add_run (a b : Z) s :
  in_int32 a -> in_int32 b ->
  mathlib_add a b s = Some ((if in_int32b (a + b) then a + b else 0), counted s).
Proof.
  intros Ha Hb. unfold mathlib_add, bind. rewrite count_call_Some.
  rewrite add_check by assumption. fold (counted s).
  destruct (in_int32b_spec (a + b)) as [Hr|Hr]; cbn [negb]; unfold ret.
  - now rewrite wrap32_id.
  - reflexivity.
Qed.

Lemma mathlib_subtract_run (a b : Z) s :
  in_int32 a -> in_int32 b ->
  mathlib_subtract a b s = Some ((if in_int32b (a - b) then a - b else 0), counted s).
Proof.
  intros Ha Hb. unfold mathlib_subtract, bind. rewrite count_call_Some.
  rewrite subtract_check by assumption. fold (counted s).
  destruct (in_int32b_spec (a - b)) as [Hr|Hr]; cbn [negb]; unfold ret.
  - now rewrite wrap32_id.
  - reflexivity.
Qed.

(** C5: on signed 32-bit arguments, add returns [a + b] when the sum is
    representable and [0] when it is not, subtract returns [a - b] when the
    difference is representable and [0] when it is not (the check precedes
    the operation, so the wrapped value is never returned); add(INT_MAX, 1)
    is 0 and add(2, 3) is 5. *)
Theorem add_subtract_overflow_checked (a b : Z) (s : LibState) :
  in_int32 a -> in_int32 b ->
  (in_int32 (a + b) -> value_of (mathlib_add a b s) = Some (a + b)) /\
  (~ in_int32 (a + b) -> value_of (mathlib_add a b s) = Some 0) /\
  (in_int32 (a - b) -> value_of (mathlib_subtract a b s) = Some (a - b)) /\
  (~ in_int32 (a - b) -> value_of (mathlib_subtract a b s) = Some 0) /\
  value_of (mathlib_add INT_MAX 1 s) = Some 0 /\
  value_of (mathlib_add 2 3 s) = Some 5.
Proof.
  intros Ha Hb.
  rewrite (mathlib_add_run a b s Ha Hb), (mathlib_subtract_run a b s Ha Hb).
  cbn [value_of option_map fst].
  destruct (in_int32b_spec (a + b)), (in_int32b_spec (a - b));
    repeat split; intros; try reflexivity; tauto.
Qed.

Lemma add_subtract_overflow_checked_witness :
  value_of (mathlib_add INT_MAX 1 mathlib_init) = Some 0 /\
  value_of (mathlib_subtract INT_MIN 1 mathlib_init) = Some 0 /\
  value_of (mathlib_subtract 10 5 mathlib_init) = Some 5.
Proof.
  assert (Ha : in_int32 INT_MAX) by (unfold in_int32, INT_MIN, INT_MAX; lia).
  assert (Hb : in_int32 1) by (unfold in_int32, INT_MIN, INT_MAX; lia).
  assert (Hc : in_int32 INT_MIN) by (unfold in_int32, INT_MIN, INT_MAX; lia).
  assert (Hd : in_int32 10) by (unfold in_int32, INT_MIN, INT_MAX; lia).
  assert (He : in_int32 5) by (unfold in_int32, INT_MIN, INT_MAX; lia).
  destruct (add_subtract_overflow_checked INT_MAX 1 mathlib_init Ha Hb) as (_ & H1 & _).
  destruct (add_subtract_overflow_checked INT_MIN 1 mathlib_init Hc Hb) as (_ & _ & _ & H2 & _).
  destruct (add_subtract_overflow_checked 10 5 mathlib_init Hd He) as (_ & _ & H3 & _).
  split; [|split].
  - apply H1. unfold in_int32, INT_MIN, INT_MAX; lia.
  - apply H2. unfold in_int32, INT_MIN, INT_MAX; lia.
  - apply H3. unfold in_int32, INT_MIN, INT_MAX; lia.
Defined.

(** ** multiply *)

Lemma multiply_check (a b : Z) :
  INT_MIN < a <= INT_MAX -> INT_MIN < b <= INT_MAX -> a <> 0 ->
  (c_abs b >? c_div INT_MAX (c_abs a)) = (INT_MAX <? Z.abs (a * b)).
Proof.
  intros Ha Hb Hnz.
  rewrite (c_abs_id a Ha), (c_abs_id b Hb). unfold c_div.
  assert (Hpos : 0 < Z.abs a) by lia.
  rewrite Z.quot_div_nonneg by (unfold INT_MAX; lia).
  assert (Hq : 0 <= INT_MAX / Z.abs a <= INT_MAX).
  { split.
    - apply Z.div_pos; unfold INT_MAX; lia.
    - apply Z.div_le_upper_bound; unfold INT_MAX; nia. }
  rewrite wrap32_id by (int_bounds; lia).
  rewrite Z.gtb_ltb, Z.abs_mul.
  assert (Hiff : INT_MAX / Z.abs a < Z.abs b <-> INT_MAX < Z.abs a * Z.abs b).
  { split; intros H.
    - apply Z.nle_gt. intros Hle. apply Z.nle_gt in H. apply H.
      apply Z.div_le_lower_bound; lia.
    - apply Z.div_lt_upper_bound; lia. }
  destruct (Z.ltb_spec (INT_MAX / Z.abs a) (Z.abs b));
    destruct (Z.ltb_spec INT_MAX (Z.abs a * Z.abs b)); try reflexivity; lia.
Qed.

(** C2, as the code has it: when neither argument is [INT_MIN], multiply
    returns [a * b] if the magnitude of the product is at most [INT_MAX] and
    the sentinel [0] if it is larger; a product equal to [INT_MIN] counts as
    too large. *)
Theorem multiply_magnitude_checked (a b : Z) (s : LibState) :
  INT_MIN < a <= INT_MAX -> INT_MIN < b <= INT_MAX ->
  (Z.abs (a * b) <= INT_MAX -> value_of (mathlib_multiply a b s) = Some (a * b)) /\
  (INT_MAX < Z.abs (a * b) -> value_of (mathlib_multiply a b s) = Some 0).
Proof.
  intros Ha Hb.
  unfold mathlib_multiply, bind. rewrite count_call_Some.
  destruct (Z.eqb_spec a 0) as [->|Hnz]; cbn [negb andb].
  - cbn. split; [reflexivity|]. intros H. unfold INT_MAX in H. lia.
  - rewrite multiply_check by assumption.
    destruct (Z.ltb_spec INT_MAX (Z.abs (a * b))) as [H|H];
      unfold ret; cbn [value_of option_map fst]; split; intros H'; try lia.
    + reflexivity.
    + rewrite wrap32_id by (int_bounds; lia). reflexivity.
Qed.

Lemma multiply_magnitude_checked_witness :
  value_of (mathlib_multiply 10 5 mathlib_init) = Some 50 /\
  value_of (mathlib_multiply 65536 32768 mathlib_init) = Some 0.
Proof.
  assert (Ha : INT_MIN < 10 <= INT_MAX) by (unfold INT_MIN, INT_MAX; lia).
  assert (Hb : INT_MIN < 5 <= INT_MAX) by (unfold INT_MIN, INT_MAX; lia).
  assert (Hc : INT_MIN < 65536 <= INT_MAX) by (unfold INT_MIN, INT_MAX; lia).
  assert (Hd : INT_MIN < 32768 <= INT_MAX) by (unfold INT_MIN, INT_MAX; lia).
  destruct (multiply_magnitude_checked 10 5 mathlib_init Ha Hb) as (H1 & _).
  destruct (multiply_magnitude_checked 65536 32768 mathlib_init Hc Hd) as (_ & H2).
  split.
  - apply H1. unfold INT_MAX. cbn. lia.
  - apply H2. unfold INT_MAX. cbn. lia.
Defined.

(** C2 as stated fails: -2 * 2^30 = -2^31 is a signed 32-bit value, yet
    multiply(-2, 2^30) returns the sentinel 0. *)
Lemma multiply_rejects_representable_product :
  in_int32 (-2) /\ in_int32 1073741824 /\ in_int32 (-2 * 1073741824) /\
  value_of (mathlib_multiply (-2) 1073741824 mathlib_init) = Some 0 /\
  -2 * 1073741824 <> 0.
Proof.
  unfold in_int32, INT_MIN, INT_MAX. repeat split; try lia; reflexivity.
Qed.

(** ** The call-count reader *)

(** C10: [mathlib_get_call_count] returns [g_call_count] and leaves the
    whole state (counter and seed) as it was, so any number of consecutive
    calls return the same value. *)
Theorem get_call_count_reads_only (s : LibState) :
  mathlib_get_call_count s = Some (g_call_count s, s) /\
  forall n : nat,
    repeat_call n mathlib_get_call_count s = Some (repeat (g_call_count s) n, s).
Proof.
  split; [reflexivity|].
  induction n as [|n IH]; [reflexivity|].
  cbn [repeat_call repeat]. unfold bind at 1.
  unfold mathlib_get_call_count at 1, get_count at 1.
  unfold bind. rewrite IH. reflexivity.
Qed.

(** ** The generator *)

Lemma lcg_masked (seed : Z) :
  Z.land (wrapu32 (wrapu32 (seed * 1103515245) + 12345)) 2147483647 = lcg_next seed.
Proof.
  change 2147483647 with (Z.ones 31). rewrite Z.land_ones by lia.
  unfold wrapu32, lcg_next. rewrite Zplus_mod_idemp_l.
  change (2 ^ 31) with 2147483648.
  apply Z.mod_mod_divide. exists 2. reflexivity.
Qed.

Lemma mathlib_random_run (s : LibState) :
  mathlib_random s =
  Some (lcg_next (g_random_seed s) mod RAND_MAX,
        mkLibState (lcg_next (g_random_seed s)) (wrap32 (g_call_count s + 1))).
Proof.
  unfold mathlib_random, bind, count_call, get_seed, put_seed, ret.
  cbn [g_random_seed g_call_count]. rewrite lcg_masked.
  rewrite wrap32_id; [reflexivity|].
  pose proof (Z.mod_pos_bound (lcg_next (g_random_seed s)) RAND_MAX eq_refl).
  int_bounds. unfold RAND_MAX in *. lia.
Qed.

Lemma repeat_random_outputs (n : nat) (s : LibState) :
  value_of (repeat_call n mathlib_random s) = Some (lcg_outputs (g_random_seed s) n).
Proof.
  revert s. induction n as [|n IH]; intros s; [reflexivity|].
  cbn [repeat_call lcg_outputs]. unfold bind at 1. rewrite mathlib_random_run.
  specialize (IH (mkLibState (lcg_next (g_random_seed s)) (wrap32 (g_call_count s + 1)))).
  unfold bind.
  destruct (repeat_call n mathlib_random _) as [[l s']|]; [|discriminate].
  cbn in IH. inversion IH; subst. reflexivity.
Qed.

(** C8: random() stores [(seed * 1103515245 + 12345) mod 2^31] as the new
    seed (the unsigned 32-bit multiply-add masked with 0x7fffffff) and
    returns the new seed modulo [RAND_MAX]; the outputs that follow a
    set_seed depend on that seed only, whatever the state before it. *)
Theorem random_is_lcg (s : LibState) :
  (exists r s', mathlib_random s = Some (r, s') /\
     g_random_seed s' = (g_random_seed s * 1103515245 + 12345) mod 2 ^ 31 /\
     g_random_seed s' =
       Z.land (wrapu32 (wrapu32 (g_random_seed s * 1103515245) + 12345)) 2147483647 /\
     r = g_random_seed s' mod RAND_MAX /\
     RAND_MAX = 2 ^ 31 - 1) /\
  (forall (seed : Z) (n : nat) (s1 s2 : LibState),
     value_of ((mathlib_set_global_seed seed ;; repeat_call n mathlib_random) s1)
     = Some (lcg_outputs seed n) /\
     value_of ((mathlib_set_global_seed seed ;; repeat_call n mathlib_random) s1)
     = value_of ((mathlib_set_global_seed seed ;; repeat_call n mathlib_random) s2)) /\
  value_of ((mathlib_set_global_seed 42 ;; repeat_call 3 mathlib_random) s)
  = Some [1250496027; 1116302264; 1000676753].
Proof.
  assert (Hseq : forall seed n s1,
             value_of ((mathlib_set_global_seed seed ;; repeat_call n mathlib_random) s1)
             = Some (lcg_outputs seed n)).
  { intros seed n s1. unfold bind at 1.
    unfold mathlib_set_global_seed, bind, count_call, put_seed.
    rewrite repeat_random_outputs. reflexivity. }
  split; [|split].
  - eexists _, _. split; [apply mathlib_random_run|].
    cbn [g_random_seed]. rewrite lcg_masked. repeat split.
  - intros seed n s1 s2. split; [apply Hseq|]. now rewrite !Hseq.
  - rewrite Hseq. vm_compute. reflexivity.
Qed.

(** ** The effect of each call on the state *)

Lemma ret_Some {A} (a b : A) s s' : ret a s = Some (b, s') -> b = a /\ s' = s.
Proof. unfold ret. intros H. inversion H. auto. Qed.

Lemma lift_opt_Some {A} (o : option A) s b s' :
  lift_opt o s = Some (b, s') -> o = Some b /\ s' = s.
Proof. unfold lift_opt. destruct o; intros H; inversion H. auto. Qed.

(** Every function that starts with [g_call_count++] continues from
    [counted s]. *)
Lemma count_call_bind {A} (k : M A) s r s' :
  (count_call ;; k) s = Some (r, s') <-> k (counted s) = Some (r, s').
Proof. unfold bind. rewrite count_call_Some. reflexivity. Qed.

Ltac state_only H :=
  repeat match type of H with
         | (if ?b then _ else _) _ = Some _ => destruct b
         | ret _ _ = Some _ => apply ret_Some in H; destruct H as [_ H]
         | lift_opt _ _ = Some _ => apply lift_opt_Some in H; destruct H as [_ H]
         end.

Lemma mathlib_array_sum_state fuel array size s r s' :
  mathlib_array_sum fuel array size s = Some (r, s') -> s' = counted s.
Proof.
  unfold mathlib_array_sum. rewrite count_call_bind. intros H.
  state_only H; exact H.
Qed.

Lemma run_effect (fuel : nat) (c : call) (s : LibState) (v : value) (s' : LibState) :
  run fuel c s = Some (v, s') ->
  match c with
  | CallVersionMajor | CallVersionMinor => s' = s
  | CallSetGlobalSeed seed => s' = mkLibState seed (g_call_count (counted s))
  | CallRandom => s' = mkLibState (lcg_next (g_random_seed s)) (g_call_count (counted s))
  | CallApplyOperation v (Some f) => exists r, f v (counted s) = Some (r, s')
  | CallArrayAverage array size =>
      s' = if no_data array size then counted s else counted (counted s)
  | _ => s' = counted s
  end.
Proof.
  destruct c; cbn [run]; rewrite fmap_Some; intros (r & H & _).
  - unfold mathlib_version in H. rewrite count_call_bind in H. state_only H. exact H.
  - apply ret_Some in H. apply H.
  - apply ret_Some in H. apply H.
  - unfold mathlib_add in H. rewrite count_call_bind in H. state_only H; exact H.
  - unfold mathlib_subtract in H. rewrite count_call_bind in H. state_only H; exact H.
  - unfold mathlib_multiply in H. rewrite count_call_bind in H. state_only H; exact H.
  - unfold mathlib_divide in H. rewrite count_call_bind in H. state_only H; exact H.
  - unfold mathlib_factorial in H. rewrite count_call_bind in H. state_only H; exact H.
  - unfold mathlib_fibonacci in H. rewrite count_call_bind in H. state_only H; exact H.
  - unfold mathlib_gcd in H. rewrite count_call_bind in H. state_only H; exact H.
  - unfold mathlib_is_prime in H. rewrite count_call_bind in H. state_only H; exact H.
  - eapply mathlib_array_sum_state; eassumption.
  - unfold mathlib_array_average in H. rewrite count_call_bind in H.
    destruct (no_data array size).
    + state_only H; exact H.
    + apply bind_Some in H. destruct H as (sum & s1 & Hsum & H).
      apply mathlib_array_sum_state in Hsum. state_only H. congruence.
  - unfold mathlib_array_max in H. rewrite count_call_bind in H.
    destruct (no_data array size).
    + state_only H; exact H.
    + apply bind_Some in H. destruct H as (m & s1 & Hm & H).
      apply lift_opt_Some in Hm. state_only H. destruct Hm; congruence.
  - unfold mathlib_array_min in H. rewrite count_call_bind in H.
    destruct (no_data array size).
    + state_only H; exact H.
    + apply bind_Some in H. destruct H as (m & s1 & Hm & H).
      apply lift_opt_Some in Hm. state_only H. destruct Hm; congruence.
  - unfold mathlib_apply_operation in H. rewrite count_call_bind in H.
    destruct operation as [f|].
    + now exists r.
    + state_only H; exact H.
  - unfold mathlib_set_global_seed in H. rewrite count_call_bind in H.
    unfold put_seed in H. inversion H. reflexivity.
  - unfold mathlib_get_global_seed in H. rewrite count_call_bind in H.
    unfold get_seed in H. inversion H. reflexivity.
  - rewrite mathlib_random_run in H. inversion H. reflexivity.
  - unfold mathlib_point_distance in H. rewrite count_call_bind in H.
    destruct p1, p2; state_only H; exact H.
Qed.

Lemma run_count (fuel : nat) (c : call) (s : LibState) (v : value) (s' : LibState) :
  INT_MIN <= g_call_count s ->
  g_call_count s + count_delta c <= INT_MAX ->
  callback_keeps_count c ->
  run fuel c s = Some (v, s') ->
  g_call_count s' = g_call_count s + count_delta c.
Proof.
  intros Hlo Hhi Hcb Hrun. apply run_effect in Hrun.
  destruct c; cbn [count_delta callback_keeps_count] in *;
    try (subst s'; try apply counted_count; lia).
  - destruct (no_data array size); subst s'.
    + apply counted_count; lia.
    + rewrite counted_count; rewrite counted_count; lia.
  - destruct operation as [f|].
    + destruct Hrun as (r & Hf). apply Hcb in Hf. rewrite Hf.
      apply counted_count; lia.
    + subst s'. apply counted_count; lia.
Qed.

Lemma count_delta_nonneg (c : call) : 0 <= count_delta c.
Proof. destruct c; cbn; try lia. destruct (no_data array size); lia. Qed.

Lemma count_delta_all_nonneg (cs : list call) : 0 <= count_delta_all cs.
Proof.
  induction cs as [|c cs IH]; cbn; [lia|].
  pose proof (count_delta_nonneg c). lia.
Qed.

Lemma run_all_count (fuel : nat) (cs : list call) :
  forall (s : LibState) (vs : list value) (s' : LibState),
    INT_MIN <= g_call_count s ->
    g_call_count s + count_delta_all cs <= INT_MAX ->
    Forall callback_keeps_count cs ->
    run_all fuel cs s = Some (vs, s') ->
    g_call_count s' = g_call_count s + count_delta_all cs.
Proof.
  induction cs as [|c cs IH]; intros s vs s' Hlo Hhi Hcb Hrun.
  - apply ret_Some in Hrun. destruct Hrun as [_ ->]. cbn. lia.
  - cbn [run_all count_delta_all] in *.
    apply bind_Some in Hrun. destruct Hrun as (v & s1 & Hc & Hrun).
    apply bind_Some in Hrun. destruct Hrun as (vs1 & s2 & Hcs & Hrun).
    apply ret_Some in Hrun. destruct Hrun as [_ ->].
    inversion Hcb as [|? ? Hcb1 Hcb2]; subst.
    pose proof (count_delta_nonneg c). pose proof (count_delta_all_nonneg cs).
    pose proof (run_count fuel c s v s1 Hlo ltac:(lia) Hcb1 Hc) as H1.
    rewrite (IH s1 vs1 s2); try assumption; lia.
Qed.

Lemma pure_callback_keeps_count (f : Z -> Z) : keeps_count (pure_callback f).
Proof. intros v s r s' H. apply ret_Some in H. destruct H as [_ ->]. reflexivity. Qed.

Lemma pure_callback_keeps_seed (f : Z -> Z) : keeps_seed (pure_callback f).
Proof. intros v s r s' H. apply ret_Some in H. destruct H as [_ ->]. reflexivity. Qed.

(** ** The seed *)

Lemma run_seed (fuel : nat) (c : call) (s : LibState) (v : value) (s' : LibState) :
  leaves_seed c -> run fuel c s = Some (v, s') -> g_random_seed s' = g_random_seed s.
Proof.
  intros Hc Hrun. apply run_effect in Hrun.
  destruct c; cbn [leaves_seed] in Hc; try contradiction; try (subst s'; reflexivity).
  - destruct (no_data array size); subst s'; reflexivity.
  - destruct operation as [f|].
    + destruct Hrun as (r & Hf). apply Hc in Hf. exact Hf.
    + subst s'. reflexivity.
Qed.

Lemma run_all_seed (fuel : nat) (cs : list call) :
  forall s vs s', Forall leaves_seed cs -> run_all fuel cs s = Some (vs, s') ->
                  g_random_seed s' = g_random_seed s.
Proof.
  induction cs as [|c cs IH]; intros s vs s' Hcs Hrun.
  - apply ret_Some in Hrun. destruct Hrun as [_ ->]. reflexivity.
  - cbn [run_all] in Hrun.
    apply bind_Some in Hrun. destruct Hrun as (v & s1 & Hc & Hrun).
    apply bind_Some in Hrun. destruct Hrun as (vs1 & s2 & Hrest & Hrun).
    apply ret_Some in Hrun. destruct Hrun as [_ ->].
    inversion Hcs; subst.
    rewrite (IH s1 vs1 s2) by assumption. eapply run_seed; eassumption.
Qed.

(** C9: set_seed(v) stores [v] in the seed field, and get_seed() then
    returns [v], also after any calls in between that do not write the seed
    (anything but set_seed, random and a callback that writes it); after
    set_seed(42), get_seed() is 42. *)
Theorem set_seed_get_seed (v : Z) (s : LibState) :
  exists s1,
    mathlib_set_global_seed v s = Some (tt, s1) /\
    g_random_seed s1 = v /\
    value_of (mathlib_get_global_seed s1) = Some v /\
    value_of ((mathlib_set_global_seed v ;; mathlib_get_global_seed) s) = Some v /\
    (forall fuel cs vs s2,
       Forall leaves_seed cs -> run_all fuel cs s1 = Some (vs, s2) ->
       value_of (mathlib_get_global_seed s2) = Some v) /\
    value_of ((mathlib_set_global_seed 42 ;; mathlib_get_global_seed) s) = Some 42.
Proof.
  eexists. split; [reflexivity|]. repeat split.
  intros fuel cs vs s2 Hcs Hrun.
  apply run_all_seed in Hrun; [|assumption].
  unfold mathlib_get_global_seed, bind, count_call, get_seed.
  cbn [value_of option_map fst g_random_seed]. rewrite Hrun. reflexivity.
Qed.

(** ** Loops and fuel *)

Lemma loop_fuel_mono {S R} (body : S -> option (step S R)) (fuel : nat) :
  forall (fuel' : nat) (s : S) (r : R),
    loop fuel body s = Some r -> (fuel <= fuel')%nat -> loop fuel' body s = Some r.
Proof.
  induction fuel as [|fuel IH]; intros fuel' s r H Hle; [discriminate|].
  destruct fuel' as [|fuel']; [lia|].
  cbn [loop] in *. destruct (body s) as [[s1|r1]|]; try assumption.
  apply IH; [assumption|lia].
Qed.

Lemma loop_advance {S R} (body : S -> option (step S R)) (k : nat) :
  forall (fuel : nat) (s s' : S),
    advance k body s = Some s' -> loop (k + fuel) body s = loop fuel body s'.
Proof.
  induction k as [|k IH]; intros fuel s s' H.
  - inversion H. reflexivity.
  - cbn [advance] in H. cbn [Nat.add loop].
    destruct (body s) as [[s1|r1]|]; try discriminate. now apply IH.
Qed.

(** ** factorial *)

Lemma product_from_pos (len : nat) : forall lo, 1 <= lo -> 1 <= product_from lo len.
Proof.
  induction len as [|len IH]; intros lo Hlo; cbn [product_from]; [lia|].
  specialize (IH (lo + 1) ltac:(lia)). nia.
Qed.

Lemma product_from_app (k : nat) :
  forall lo j, product_from lo (k + j) = product_from lo k * product_from (lo + Z.of_nat k) j.
Proof.
  induction k as [|k IH]; intros lo j.
  - cbn [Nat.add product_from]. rewrite Z.add_0_r. lia.
  - cbn [Nat.add product_from]. rewrite IH.
    replace (lo + 1 + Z.of_nat k) with (lo + Z.of_nat (Datatypes.S k)) by lia. ring.
Qed.

Lemma product_from_mono (lo : Z) (k k' : nat) :
  1 <= lo -> (k <= k')%nat -> product_from lo k <= product_from lo k'.
Proof.
  intros Hlo Hk. replace k' with (k + (k' - k))%nat by lia.
  rewrite product_from_app.
  pose proof (product_from_pos k lo Hlo).
  pose proof (product_from_pos (k' - k) (lo + Z.of_nat k) ltac:(lia)). nia.
Qed.

(** The loop of factorial from [(i, acc)], with [k] factors still to take. *)
Lemma factorial_loop (n : Z) (k : nat) :
  forall (fuel : nat) (i acc : Z),
    2 <= i -> i + Z.of_nat k = Z.min n 20 + 1 -> (k < fuel)%nat ->
    0 < acc -> acc * product_from i k <= 9223372036854775807 ->
    loop fuel (factorial_body n) (i, acc) = Some (acc * product_from i k).
Proof.
  induction k as [|k IH]; intros fuel i acc Hi Hk Hfuel Hacc Hbound;
    (destruct fuel as [|fuel]; [lia|]); cbn [loop factorial_body product_from].
  - replace ((i <=? n) && (i <=? 20)) with false; [f_equal; lia|].
    symmetry. apply andb_false_iff. rewrite !Z.leb_gt. lia.
  - replace ((i <=? n) && (i <=? 20)) with true
      by (symmetry; apply andb_true_iff; rewrite !Z.leb_le; lia).
    cbn [product_from] in Hbound.
    pose proof (product_from_pos k (i + 1) ltac:(lia)) as Hp.
    rewrite wrap32_id by (int_bounds; lia).
    rewrite wrap64_id by nia.
    rewrite IH; try lia.
    f_equal; ring.
Qed.

Lemma mathlib_factorial_run (fuel : nat) (n : Z) (s : LibState) :
  (20 <= fuel)%nat ->
  mathlib_factorial fuel n s =
  Some ((if n <? 0 then -1 else if n <=? 1 then 1 else product_2_to (Z.min n 20)),
        counted s).
Proof.
  intros Hfuel. unfold mathlib_factorial. apply count_call_bind.
  destruct (Z.ltb_spec n 0) as [Hneg|Hnn]; [reflexivity|].
  destruct (Z.leb_spec n 1) as [Hle|Hgt].
  - replace ((n =? 0) || (n =? 1)) with true; [reflexivity|].
    symmetry. apply orb_true_iff. rewrite !Z.eqb_eq. lia.
  - replace ((n =? 0) || (n =? 1)) with false
      by (symmetry; apply orb_false_iff; rewrite !Z.eqb_neq; lia).
    unfold product_2_to.
    assert (Hk : (Z.to_nat (Z.min n 20 - 1) <= 19)%nat) by lia.
    rewrite (factorial_loop n (Z.to_nat (Z.min n 20 - 1)) fuel 2 1); try lia.
    + unfold lift_opt. now rewrite Z.mul_1_l.
    + rewrite Z.mul_1_l.
      apply Z.le_trans with (product_from 2 19); [|vm_compute; discriminate].
      apply product_from_mono; lia.
Qed.

(** C6: factorial(n) is -1 for negative [n], 1 for [n] in {0, 1}, and
    otherwise the product of the integers 2 .. min(n, 20), so arguments
    above 20 give the value for 20; factorial(5) is 120 and factorial(21)
    equals factorial(20). *)
Theorem factorial_capped (fuel : nat) (n : Z) (s : LibState) :
  (20 <= fuel)%nat ->
  in_int32 n ->
  (n < 0 -> value_of (mathlib_factorial fuel n s) = Some (-1)) /\
  (n = 0 \/ n = 1 -> value_of (mathlib_factorial fuel n s) = Some 1) /\
  (2 <= n -> value_of (mathlib_factorial fuel n s) = Some (product_2_to (Z.min n 20))) /\
  (20 < n -> value_of (mathlib_factorial fuel n s) = value_of (mathlib_factorial fuel 20 s)) /\
  value_of (mathlib_factorial fuel 5 s) = Some 120 /\
  value_of (mathlib_factorial fuel 21 s) = value_of (mathlib_factorial fuel 20 s) /\
  value_of (mathlib_factorial fuel 20 s) = Some 2432902008176640000.
Proof.
  intros Hfuel _. rewrite !mathlib_factorial_run by assumption.
  cbn [value_of option_map fst]. repeat split.
  - intros H. now rewrite (proj2 (Z.ltb_lt n 0) H).
  - intros H. rewrite (proj2 (Z.ltb_ge n 0)) by lia.
    now rewrite (proj2 (Z.leb_le n 1)) by lia.
  - intros H. rewrite (proj2 (Z.ltb_ge n 0)) by lia.
    now rewrite (proj2 (Z.leb_gt n 1)) by lia.
  - intros H. rewrite (proj2 (Z.ltb_ge n 0)) by lia.
    rewrite (proj2 (Z.leb_gt n 1)) by lia.
    rewrite Z.min_r by lia. reflexivity.
Qed.

Lemma factorial_capped_witness :
  value_of (mathlib_factorial 20 (-3) mathlib_init) = Some (-1) /\
  value_of (mathlib_factorial 20 10 mathlib_init) = Some (product_2_to (Z.min 10 20)) /\
  value_of (mathlib_factorial 20 25 mathlib_init)
  = value_of (mathlib_factorial 20 20 mathlib_init).
Proof.
  assert (Hf : (20 <= 20)%nat) by lia.
  assert (H1 : in_int32 (-3)) by (unfold in_int32, INT_MIN, INT_MAX; lia).
  assert (H2 : in_int32 10) by (unfold in_int32, INT_MIN, INT_MAX; lia).
  assert (H3 : in_int32 25) by (unfold in_int32, INT_MIN, INT_MAX; lia).
  destruct (factorial_capped 20 (-3) mathlib_init Hf H1) as (Ha & _).
  destruct (factorial_capped 20 10 mathlib_init Hf H2) as (_ & _ & Hb & _).
  destruct (factorial_capped 20 25 mathlib_init Hf H3) as (_ & _ & _ & Hc & _).
  split; [|split].
  - apply Ha. lia.
  - apply Hb. lia.
  - apply Hc. lia.
Defined.

(** ** Arrays *)

Lemma no_data_true (array : int_array) (size : Z) :
  array = None \/ size <= 0 -> no_data array size = true.
Proof.
  intros [->|H]; [reflexivity|].
  destruct array; [|reflexivity]. cbn. now apply Z.leb_le.
Qed.

Lemma no_data_false (l : list Z) (size : Z) : 0 < size -> no_data (Some l) size = false.
Proof. intros H. cbn. now apply Z.leb_gt. Qed.

Lemma array_get_Some (l : list Z) (i : Z) :
  0 <= i < Z.of_nat (length l) ->
  exists v, array_get l i = Some v /\
            firstn (Z.to_nat (i + 1)) l = firstn (Z.to_nat i) l ++ [v].
Proof.
  intros Hi. unfold array_get. rewrite (proj2 (Z.ltb_ge i 0)) by lia.
  replace (Z.to_nat (i + 1)) with (Datatypes.S (Z.to_nat i)) by lia.
  assert (Hlen : (Z.to_nat i < length l)%nat) by lia.
  revert Hlen. generalize (Z.to_nat i). clear Hi i. intros n. revert l.
  induction n as [|n IH]; intros [|a l] Hlen; cbn [length] in Hlen; try lia.
  - exists a. split; reflexivity.
  - destruct (IH l ltac:(lia)) as (v & Hv & Hf). exists v. split; [exact Hv|].
    cbn [firstn app] in *. now rewrite Hf.
Qed.

Lemma is_max_of_snoc (l : list Z) (m v : Z) :
  is_max_of l m -> is_max_of (l ++ [v]) (if v >? m then v else m).
Proof.
  intros [Hin Hub]. rewrite Z.gtb_ltb. destruct (Z.ltb_spec m v) as [Hlt|Hge]; split.
  - apply in_or_app. right. now left.
  - intros w Hw. apply in_app_or in Hw. destruct Hw as [Hw|[<-|[]]]; [|lia].
    specialize (Hub w Hw). lia.
  - apply in_or_app. now left.
  - intros w Hw. apply in_app_or in Hw. destruct Hw as [Hw|[<-|[]]]; [|lia].
    now apply Hub.
Qed.

Lemma is_min_of_snoc (l : list Z) (m v : Z) :
  is_min_of l m -> is_min_of (l ++ [v]) (if v <? m then v else m).
Proof.
  intros [Hin Hlb]. destruct (Z.ltb_spec v m) as [Hlt|Hge]; split.
  - apply in_or_app. right. now left.
  - intros w Hw. apply in_app_or in Hw. destruct Hw as [Hw|[<-|[]]]; [|lia].
    specialize (Hlb w Hw). lia.
  - apply in_or_app. now left.
  - intros w Hw. apply in_app_or in Hw. destruct Hw as [Hw|[<-|[]]]; [|lia].
    now apply Hlb.
Qed.

Section ArrayLoops.

Variables (l : list Z) (size : Z).
Hypothesis size_in_buffer : size <= Z.of_nat (length l).
Hypothesis size_is_int : size <= INT_MAX.

Lemma array_max_loop (k : nat) :
  forall (fuel : nat) (i m : Z),
    1 <= i -> i + Z.of_nat k = size -> (k < fuel)%nat ->
    is_max_of (firstn (Z.to_nat i) l) m ->
    exists m', loop fuel (array_max_body l size) (i, m) = Some m' /\
               is_max_of (firstn (Z.to_nat size) l) m'.
Proof.
  induction k as [|k IH]; intros fuel i m Hi Hk Hfuel Hm;
    (destruct fuel as [|fuel]; [lia|]); cbn [loop array_max_body].
  - rewrite (proj2 (Z.ltb_ge i size)) by lia. exists m. split; [reflexivity|].
    now replace size with i by lia.
  - rewrite (proj2 (Z.ltb_lt i size)) by lia.
    destruct (array_get_Some l i ltac:(lia)) as (v & -> & Hf).
    rewrite wrap32_id by (int_bounds; lia).
    apply IH; try lia. rewrite Hf. now apply is_max_of_snoc.
Qed.

Lemma array_min_loop (k : nat) :
  forall (fuel : nat) (i m : Z),
    1 <= i -> i + Z.of_nat k = size -> (k < fuel)%nat ->
    is_min_of (firstn (Z.to_nat i) l) m ->
    exists m', loop fuel (array_min_body l size) (i, m) = Some m' /\
               is_min_of (firstn (Z.to_nat size) l) m'.
Proof.
  induction k as [|k IH]; intros fuel i m Hi Hk Hfuel Hm;
    (destruct fuel as [|fuel]; [lia|]); cbn [loop array_min_body].
  - rewrite (proj2 (Z.ltb_ge i size)) by lia. exists m. split; [reflexivity|].
    now replace size with i by lia.
  - rewrite (proj2 (Z.ltb_lt i size)) by lia.
    destruct (array_get_Some l i ltac:(lia)) as (v & -> & Hf).
    rewrite wrap32_id by (int_bounds; lia).
    apply IH; try lia. rewrite Hf. now apply is_min_of_snoc.
Qed.

Lemma first_element :
  0 < size ->
  exists v, array_get l 0 = Some v /\ firstn (Z.to_nat 1) l = [v].
Proof.
  intros Hpos. destruct (array_get_Some l 0 ltac:(lia)) as (v & Hv & Hf).
  exists v. split; [exact Hv|]. exact Hf.
Qed.

Lemma mathlib_array_max_run (fuel : nat) (s : LibState) :
  0 < size -> (Z.to_nat size <= fuel)%nat ->
  exists m, mathlib_array_max fuel (Some l) size s = Some (m, counted s) /\
            is_max_of (firstn (Z.to_nat size) l) m.
Proof.
  intros Hpos Hfuel. destruct (first_element Hpos) as (v & Hv & Hf).
  destruct (array_max_loop (Z.to_nat (size - 1)) fuel 1 v) as (m & Hloop & Hm); try lia.
  { rewrite Hf. split; [now left|]. intros w [<-|[]]. lia. }
  exists m. split; [|exact Hm].
  unfold mathlib_array_max. apply count_call_bind.
  rewrite no_data_false by assumption. cbn [elements].
  unfold bind, lift_opt. now rewrite Hv, Hloop.
Qed.

Lemma mathlib_array_min_run (fuel : nat) (s : LibState) :
  0 < size -> (Z.to_nat size <= fuel)%nat ->
  exists m, mathlib_array_min fuel (Some l) size s = Some (m, counted s) /\
            is_min_of (firstn (Z.to_nat size) l) m.
Proof.
  intros Hpos Hfuel. destruct (first_element Hpos) as (v & Hv & Hf).
  destruct (array_min_loop (Z.to_nat (size - 1)) fuel 1 v) as (m & Hloop & Hm); try lia.
  { rewrite Hf. split; [now left|]. intros w [<-|[]]. lia. }
  exists m. split; [|exact Hm].
  unfold mathlib_array_min. apply count_call_bind.
  rewrite no_data_false by assumption. cbn [elements].
  unfold bind, lift_opt. now rewrite Hv, Hloop.
Qed.

End ArrayLoops.

Lemma mathlib_array_no_data (fuel : nat) (array : int_array) (size : Z) (s : LibState) :
  array = None \/ size <= 0 ->
  mathlib_array_sum fuel array size s = Some (0, counted s) /\
  mathlib_array_average fuel array size s = Some (0%float, counted s) /\
  mathlib_array_max fuel array size s = Some (INT_MIN, counted s) /\
  mathlib_array_min fuel array size s = Some (INT_MAX, counted s).
Proof.
  intros H. apply no_data_true in H.
  unfold mathlib_array_sum, mathlib_array_average, mathlib_array_max, mathlib_array_min.
  repeat split; apply count_call_bind; rewrite H; reflexivity.
Qed.

(** C3, as the code has it: on absent or empty input (null pointer or
    non-positive size) array max returns [INT_MIN] and array min returns
    [INT_MAX]; on [size > 0] elements of the caller's buffer each returns the
    greatest (resp. least) of them. *)
Theorem array_max_min_contract (fuel : nat) (array : int_array) (size : Z) (s : LibState) :
  (Z.to_nat size <= fuel)%nat ->
  size <= INT_MAX ->
  (array = None \/ size <= 0 ->
     value_of (mathlib_array_max fuel array size s) = Some INT_MIN /\
     value_of (mathlib_array_min fuel array size s) = Some INT_MAX) /\
  (forall l, array = Some l -> 0 < size <= Z.of_nat (length l) ->
     exists mx mn,
       value_of (mathlib_array_max fuel array size s) = Some mx /\
       value_of (mathlib_array_min fuel array size s) = Some mn /\
       is_max_of (firstn (Z.to_nat size) l) mx /\
       is_min_of (firstn (Z.to_nat size) l) mn).
Proof.
  intros Hfuel Hint. split.
  - intros H. destruct (mathlib_array_no_data fuel array size s H) as (_ & _ & -> & ->).
    split; reflexivity.
  - intros l -> [Hpos Hlen].
    destruct (mathlib_array_max_run l size Hlen Hint fuel s Hpos Hfuel) as (mx & -> & Hmx).
    destruct (mathlib_array_min_run l size Hlen Hint fuel s Hpos Hfuel) as (mn & -> & Hmn).
    exists mx, mn. repeat split; try apply Hmx; apply Hmn.
Qed.

Lemma array_max_min_contract_witness :
  value_of (mathlib_array_max 3 (Some [4; -7; 9]) 3 mathlib_init) = Some 9 /\
  value_of (mathlib_array_min 3 (Some [4; -7; 9]) 3 mathlib_init) = Some (-7) /\
  value_of (mathlib_array_max 3 None 3 mathlib_init) = Some INT_MIN /\
  value_of (mathlib_array_min 3 None 3 mathlib_init) = Some INT_MAX.
Proof.
  assert (Hf : (Z.to_nat 3 <= 3)%nat) by (cbn; lia).
  assert (Hi : 3 <= INT_MAX) by (unfold INT_MAX; lia).
  destruct (array_max_min_contract 3 (Some [4; -7; 9]) 3 mathlib_init Hf Hi) as (_ & Hsome).
  destruct (array_max_min_contract 3 None 3 mathlib_init Hf Hi) as (Hnone & _).
  destruct (Hsome [4; -7; 9] eq_refl) as (mx & mn & Hmx & Hmn & _).
  { cbn. lia. }
  destruct (Hnone (or_introl eq_refl)) as (H1 & H2).
  repeat split; try assumption; reflexivity.
Defined.

(** C3 as stated fails: on an absent array max returns [INT_MIN], not the
    maximum representable value, and min returns [INT_MAX], not the
    minimum. *)
Lemma array_max_min_sentinels_swapped :
  value_of (mathlib_array_max 0 None 0 mathlib_init) = Some INT_MIN /\
  value_of (mathlib_array_min 0 None 0 mathlib_init) = Some INT_MAX /\
  INT_MIN <> INT_MAX.
Proof. repeat split. unfold INT_MIN, INT_MAX. lia. Qed.

(** The test program's array, for any fuel that covers its ten elements. *)
Lemma test_array_loops (fuel : nat) :
  (11 <= fuel)%nat ->
  loop fuel (array_sum_body (elements test_array) 10) (0, 0) = Some 55 /\
  loop fuel (array_max_body (elements test_array) 10) (1, 1) = Some 10 /\
  loop fuel (array_min_body (elements test_array) 10) (1, 1) = Some 1.
Proof.
  intros Hfuel.
  repeat split; (eapply loop_fuel_mono; [|exact Hfuel]); vm_compute; reflexivity.
Qed.

Lemma mathlib_array_test_values (fuel : nat) (s : LibState) :
  (11 <= fuel)%nat ->
  mathlib_array_sum fuel test_array 10 s = Some (55, counted s) /\
  mathlib_array_average fuel test_array 10 s = Some (5.5%float, counted (counted s)) /\
  mathlib_array_max fuel test_array 10 s = Some (10, counted s) /\
  mathlib_array_min fuel test_array 10 s = Some (1, counted s).
Proof.
  intros Hfuel. destruct (test_array_loops fuel Hfuel) as (Hsum & Hmax & Hmin).
  assert (Hs : forall s0, mathlib_array_sum fuel test_array 10 s0 = Some (55, counted s0)).
  { intros s0. unfold mathlib_array_sum. apply count_call_bind.
    change (no_data test_array 10) with false. cbv iota. now rewrite Hsum. }
  repeat split.
  - apply Hs.
  - unfold mathlib_array_average. apply count_call_bind.
    change (no_data test_array 10) with false. cbv iota.
    unfold bind. rewrite Hs. reflexivity.
  - unfold mathlib_array_max. apply count_call_bind.
    change (no_data test_array 10) with false. cbv iota.
    unfold bind. change (array_get (elements test_array) 0) with (Some 1).
    cbn [lift_opt]. now rewrite Hmax.
  - unfold mathlib_array_min. apply count_call_bind.
    change (no_data test_array 10) with false. cbv iota.
    unfold bind. change (array_get (elements test_array) 0) with (Some 1).
    cbn [lift_opt]. now rewrite Hmin.
Qed.

(** C4: on an absent or empty array sum returns 0, average 0.0, max
    [INT_MIN] and min [INT_MAX]; on the array 1, 2, ..., 10 with size 10
    sum returns 55, average 5.5, max 10 and min 1. *)
Theorem array_edge_and_test_values (fuel : nat) (array : int_array) (size : Z) (s : LibState) :
  (11 <= fuel)%nat ->
  array = None \/ size <= 0 ->
  value_of (mathlib_array_sum fuel array size s) = Some 0 /\
  value_of (mathlib_array_average fuel array size s) = Some 0%float /\
  value_of (mathlib_array_max fuel array size s) = Some INT_MIN /\
  value_of (mathlib_array_min fuel array size s) = Some INT_MAX /\
  value_of (mathlib_array_sum fuel (Some [1; 2; 3; 4; 5; 6; 7; 8; 9; 10]) 10 s) = Some 55 /\
  value_of (mathlib_array_average fuel (Some [1; 2; 3; 4; 5; 6; 7; 8; 9; 10]) 10 s)
  = Some 5.5%float /\
  value_of (mathlib_array_max fuel (Some [1; 2; 3; 4; 5; 6; 7; 8; 9; 10]) 10 s) = Some 10 /\
  value_of (mathlib_array_min fuel (Some [1; 2; 3; 4; 5; 6; 7; 8; 9; 10]) 10 s) = Some 1.
Proof.
  intros Hfuel Hnone.
  destruct (mathlib_array_no_data fuel array size s Hnone) as (-> & -> & -> & ->).
  fold test_array.
  destruct (mathlib_array_test_values fuel s Hfuel) as (-> & -> & -> & ->).
  repeat split.
Qed.

Lemma array_edge_and_test_values_witness :
  value_of (mathlib_array_sum 11 (Some []) 0 mathlib_init) = Some 0 /\
  value_of (mathlib_array_average 11 (Some []) 0 mathlib_init) = Some 0%float /\
  value_of (mathlib_array_max 11 (Some []) 0 mathlib_init) = Some INT_MIN /\
  value_of (mathlib_array_min 11 (Some []) 0 mathlib_init) = Some INT_MAX /\
  value_of (mathlib_array_sum 11 (Some [1; 2; 3; 4; 5; 6; 7; 8; 9; 10]) 10 mathlib_init)
  = Some 55 /\
  value_of (mathlib_array_average 11 (Some [1; 2; 3; 4; 5; 6; 7; 8; 9; 10]) 10 mathlib_init)
  = Some 5.5%float /\
  value_of (mathlib_array_max 11 (Some [1; 2; 3; 4; 5; 6; 7; 8; 9; 10]) 10 mathlib_init)
  = Some 10 /\
  value_of (mathlib_array_min 11 (Some [1; 2; 3; 4; 5; 6; 7; 8; 9; 10]) 10 mathlib_init)
  = Some 1.
Proof.
  apply (array_edge_and_test_values 11 (Some []) 0 mathlib_init).
  - lia.
  - right. lia.
Defined.

(** ** is_prime *)

Lemma c_mod_zero_iff (n d : Z) : d <> 0 -> (c_mod n d =? 0) = true <-> (d | n).
Proof. intros Hd. unfold c_mod. rewrite Z.eqb_eq. now apply Z.rem_divide. Qed.

Lemma c_mod_nonzero_iff (n d : Z) : d <> 0 -> (c_mod n d =? 0) = false <-> ~ (d | n).
Proof.
  intros Hd. rewrite <- (c_mod_zero_iff n d Hd).
  destruct (c_mod n d =? 0); split; intros H; congruence.
Qed.

(** Trial division up to the square root decides primality. *)
Lemma no_small_divisor_prime (n i : Z) :
  1 < n -> 0 < i -> n < i * i ->
  (forall d, 1 < d < i -> ~ (d | n)) -> Z.prime n.
Proof.
  intros Hn Hi Hsq Hnod. split; [assumption|].
  intros d Hd [q Hq].
  destruct (Z.lt_ge_cases d i) as [Hlt|Hge].
  - apply (Hnod d); [lia|]. now exists q.
  - assert (Hq1 : 1 < q) by nia.
    assert (Hq2 : q < i) by nia.
    apply (Hnod q); [lia|]. exists d. lia.
Qed.

Lemma proper_divisor_not_prime (n d : Z) : 1 < d < n -> (d | n) -> ~ Z.prime n.
Proof.
  intros Hd Hdiv Hp. destruct Hp as [_ Hp].
  now apply (Hp d).
Qed.

Lemma no_divisor_from_sound (len : nat) :
  forall lo n, 0 < lo -> no_divisor_from len lo n = true ->
               forall d, lo <= d < lo + Z.of_nat len -> ~ (d | n).
Proof.
  induction len as [|len IH]; intros lo n Hlo H d Hd; [lia|].
  cbn [no_divisor_from] in H. apply andb_true_iff in H. destruct H as [H1 H2].
  destruct (Z.eq_dec d lo) as [->|Hne].
  - apply negb_true_iff, Z.eqb_neq in H1. intros Hdiv. apply H1.
    apply Z.mod_divide; [lia|assumption].
  - apply (IH (lo + 1) n); [lia|assumption|lia].
Qed.

Lemma is_prime_inv_next (n i : Z) :
  is_prime_inv n i -> i * i <= n -> ~ (i | n) -> ~ (i + 2 | n) -> is_prime_inv n (i + 6).
Proof.
  intros (Hmod & Hi & Hnod & _) Hsq Hni Hni2.
  assert (H2 : ~ (2 | n)) by (apply Hnod; lia).
  assert (H3 : ~ (3 | n)) by (apply Hnod; lia).
  split; [Z.div_mod_to_equations; lia|].
  split; [lia|]. split; [|replace (i + 6 - 6) with i by lia; assumption].
  intros d Hd Hdiv.
  destruct (Z.lt_ge_cases d i) as [Hlt|Hge]; [now apply (Hnod d); [lia|]|].
  assert (Hcases : d = i \/ d = i + 2 \/ (2 | d) \/ (3 | d)).
  { assert (Hd6 : d = i \/ d = i + 1 \/ d = i + 2 \/ d = i + 3 \/ d = i + 4 \/ d = i + 5)
      by lia.
    destruct Hd6 as [-> | [-> | [-> | [-> | [-> | ->]]]]]; auto;
      right; right.
    - left. exists ((i + 1) / 2). Z.div_mod_to_equations; lia.
    - left. exists ((i + 3) / 2). Z.div_mod_to_equations; lia.
    - right. exists ((i + 4) / 3). Z.div_mod_to_equations; lia.
    - left. exists ((i + 5) / 2). Z.div_mod_to_equations; lia. }
  destruct Hcases as [-> | [-> | [H | H]]]; try contradiction.
  + apply H2. eapply Z.divide_trans; eassumption.
  + apply H3. eapply Z.divide_trans; eassumption.
Qed.

Section IsPrimeLoop.

Variable n : Z.
Hypothesis n_above_3 : 3 < n.
Hypothesis n_is_int : n <= INT_MAX.
(** Either [n] is below 46337 * 46337, or it is composite: in both cases the
    loop ends before [i * i] leaves the range of [int]. *)
Hypothesis no_overflow : n < 2147117569 \/ ~ Z.prime n.

Lemma is_prime_inv_bound (i : Z) : is_prime_inv n i -> i <= 46337.
Proof.
  intros (Hmod & Hi & Hnod & Hprev).
  destruct (Z.le_gt_cases i 46337) as [Hle|Hgt]; [assumption|exfalso].
  assert (Hi' : 46343 <= i) by (Z.div_mod_to_equations; lia).
  destruct no_overflow as [Hsmall|Hcomp]; [nia|].
  apply Hcomp. apply (no_small_divisor_prime n i); try lia; try assumption.
  unfold INT_MAX in n_is_int. nia.
Qed.

Lemma is_prime_loop_correct (k : nat) :
  forall (fuel : nat) (i : Z),
    i + 6 * Z.of_nat k = 46343 -> (k <= fuel)%nat -> is_prime_inv n i ->
    (Z.prime n -> loop fuel (is_prime_body n) i = Some 1) /\
    (~ Z.prime n -> loop fuel (is_prime_body n) i = Some 0).
Proof.
  induction k as [|k IH]; intros fuel i Hk Hfuel Hinv.
  - apply is_prime_inv_bound in Hinv. lia.
  - pose proof (is_prime_inv_bound i Hinv) as Hb.
    destruct Hinv as (Hmod & Hi & Hnod & Hprev).
    destruct fuel as [|fuel]; [lia|]. cbn [loop]. unfold is_prime_body.
    rewrite (wrap32_id (i * i)) by (int_bounds; nia).
    rewrite (wrap32_id (i + 2)) by (int_bounds; lia).
    rewrite (wrap32_id (i + 6)) by (int_bounds; lia).
    destruct (Z.leb_spec (i * i) n) as [Hsq|Hsq].
    + destruct (c_mod n i =? 0) eqn:Hdi; cbn [orb].
      { apply c_mod_zero_iff in Hdi; [|lia].
        assert (Hnp : ~ Z.prime n) by (apply (proper_divisor_not_prime n i); [nia|assumption]).
        split; intros H; [contradiction|reflexivity]. }
      destruct (c_mod n (i + 2) =? 0) eqn:Hdi2.
      { apply c_mod_zero_iff in Hdi2; [|lia].
        assert (Hnp : ~ Z.prime n)
          by (apply (proper_divisor_not_prime n (i + 2)); [nia|assumption]).
        split; intros H; [contradiction|reflexivity]. }
      apply c_mod_nonzero_iff in Hdi; [|lia].
      apply c_mod_nonzero_iff in Hdi2; [|lia].
      apply IH; [lia|lia|].
      apply is_prime_inv_next; try assumption. repeat split; assumption.
    + assert (Hp : Z.prime n) by (apply (no_small_divisor_prime n i); try lia; assumption).
      split; intros H; [reflexivity|contradiction].
Qed.

Lemma mathlib_is_prime_run (fuel : nat) (s : LibState) :
  (trial_division_turns <= fuel)%nat ->
  (Z.prime n -> mathlib_is_prime fuel n s = Some (1, counted s)) /\
  (~ Z.prime n -> mathlib_is_prime fuel n s = Some (0, counted s)).
Proof.
  intros Hfuel. unfold mathlib_is_prime.
  rewrite (proj2 (Z.leb_gt n 1)) by lia. rewrite (proj2 (Z.leb_gt n 3)) by lia.
  destruct (c_mod n 2 =? 0) eqn:H2; cbn [orb].
  { apply c_mod_zero_iff in H2; [|lia].
    assert (Hnp : ~ Z.prime n) by (apply (proper_divisor_not_prime n 2); [lia|assumption]).
    split; intros H; [contradiction|]. now apply count_call_bind. }
  destruct (c_mod n 3 =? 0) eqn:H3.
  { apply c_mod_zero_iff in H3; [|lia].
    assert (Hnp : ~ Z.prime n) by (apply (proper_divisor_not_prime n 3); [lia|assumption]).
    split; intros H; [contradiction|]. now apply count_call_bind. }
  apply c_mod_nonzero_iff in H2; [|lia]. apply c_mod_nonzero_iff in H3; [|lia].
  assert (Hinv : is_prime_inv n 5).
  { repeat split; try lia.
    intros d Hd Hdiv. assert (Hc : d = 2 \/ d = 3 \/ d = 4) by lia.
    destruct Hc as [-> | [-> | ->]]; try contradiction.
    apply H2. apply Z.divide_trans with 4; [now exists 2|assumption]. }
  destruct (is_prime_loop_correct trial_division_turns fuel 5 eq_refl Hfuel Hinv) as [Hp Hnp].
  split; intros H; apply count_call_bind; unfold lift_opt.
  - now rewrite Hp.
  - now rewrite Hnp.
Qed.

End IsPrimeLoop.

(** Wherever the loop stays within [int] (below 46337 * 46337, and on every
    composite number), is_prime decides primality. *)
Lemma is_prime_correct_without_overflow (fuel : nat) (n : Z) (s : LibState) :
  (trial_division_turns <= fuel)%nat ->
  in_int32 n ->
  n < 2147117569 \/ ~ Z.prime n ->
  (Z.prime n -> mathlib_is_prime fuel n s = Some (1, counted s)) /\
  (~ Z.prime n -> mathlib_is_prime fuel n s = Some (0, counted s)).
Proof.
  intros Hfuel [_ Hint] Hsafe.
  destruct (Z.le_gt_cases n 3) as [Hle|Hgt].
  - unfold mathlib_is_prime.
    destruct (Z.leb_spec n 1) as [H1|H1].
    + split; intros H; [|now apply count_call_bind].
      destruct H as [H _]. lia.
    + rewrite (proj2 (Z.leb_le n 3)) by lia.
      split; intros H; [now apply count_call_bind|].
      exfalso. apply H. assert (Hc : n = 2 \/ n = 3) by lia.
      destruct Hc as [-> | ->]; [apply Z.prime_2|apply Z.prime_3].
  - now apply mathlib_is_prime_run.
Qed.

Example is_prime_17_18 (s : LibState) :
  value_of (mathlib_is_prime 2 17 s) = Some 1 /\ value_of (mathlib_is_prime 0 18 s) = Some 0.
Proof. split; reflexivity. Qed.

(** *** The largest [int]

    At [n = INT_MAX] the exit test [i * i <= n] is true of every [int], so
    the loop can only leave through [return 0]. *)

Lemma is_prime_body_INT_MAX (i : Z) :
  is_prime_body INT_MAX i = Some (Return 0) \/
  is_prime_body INT_MAX i = Some (Continue (wrap32 (i + 6))).
Proof.
  unfold is_prime_body.
  rewrite (proj2 (Z.leb_le (wrap32 (i * i)) INT_MAX)) by apply wrap32_range.
  destruct ((c_mod INT_MAX i =? 0) || (c_mod INT_MAX (wrap32 (i + 2)) =? 0)); auto.
Qed.

Lemma is_prime_loop_INT_MAX_only_0 (fuel : nat) :
  forall i r, loop fuel (is_prime_body INT_MAX) i = Some r -> r = 0.
Proof.
  induction fuel as [|fuel IH]; intros i r H; [discriminate|].
  cbn [loop] in H. destruct (is_prime_body_INT_MAX i) as [Hb|Hb]; rewrite Hb in H.
  - now inversion H.
  - eapply IH; eassumption.
Qed.

Lemma is_prime_loop_INT_MAX_ends (k : nat) :
  forall (fuel : nat) (i : Z),
    5 <= i -> i + 6 * Z.of_nat k = INT_MAX - 2 -> (k < fuel)%nat ->
    loop fuel (is_prime_body INT_MAX) i = Some 0.
Proof.
  induction k as [|k IH]; intros fuel i Hi Hk Hfuel;
    (destruct fuel as [|fuel]; [lia|]); cbn [loop].
  - unfold is_prime_body.
    rewrite (proj2 (Z.leb_le (wrap32 (i * i)) INT_MAX)) by apply wrap32_range.
    replace (wrap32 (i + 2)) with INT_MAX
      by (symmetry; rewrite wrap32_id by (int_bounds; lia); lia).
    change (c_mod INT_MAX INT_MAX =? 0) with true. now rewrite orb_true_r.
  - destruct (is_prime_body_INT_MAX i) as [Hb|Hb]; rewrite Hb; [reflexivity|].
    rewrite wrap32_id by (int_bounds; lia).
    apply IH; lia.
Qed.

Lemma INT_MAX_prime : Z.prime INT_MAX.
Proof.
  apply (no_small_divisor_prime INT_MAX 46341); try (unfold INT_MAX; lia).
  intros d Hd.
  apply (no_divisor_from_sound (Z.to_nat 46339) 2 INT_MAX); try lia.
  vm_compute. reflexivity.
Qed.

(** C7 at its failing input: 2147483647 is prime, and is_prime returns 0 on
    it.  After 7723 turns the loop is at [i = 46343], whose square is not an
    [int]; with the wrapped square the loop goes on to [i = INT_MAX - 2],
    where [n % (i + 2)] is 0. *)
Theorem is_prime_INT_MAX (s : LibState) :
  Z.prime 2147483647 /\
  advance trial_division_turns (is_prime_body 2147483647) 5 = Some 46343 /\
  INT_MAX < 46343 * 46343 /\
  mathlib_is_prime (Datatypes.S turns_to_INT_MAX) 2147483647 s = Some (0, counted s) /\
  (forall fuel r s', mathlib_is_prime fuel 2147483647 s = Some (r, s') -> r = 0).
Proof.
  split; [exact INT_MAX_prime|].
  split; [vm_compute; reflexivity|].
  split; [unfold INT_MAX; lia|].
  assert (Hloop : loop (Datatypes.S turns_to_INT_MAX) (is_prime_body INT_MAX) 5 = Some 0).
  { apply (is_prime_loop_INT_MAX_ends turns_to_INT_MAX); [lia| |lia].
    unfold turns_to_INT_MAX. rewrite Z2Nat.id by lia. reflexivity. }
  split.
  - unfold mathlib_is_prime. apply count_call_bind.
    change (2147483647 <=? 1) with false. change (2147483647 <=? 3) with false.
    change ((c_mod 2147483647 2 =? 0) || (c_mod 2147483647 3 =? 0)) with false.
    cbv iota. unfold lift_opt. change 2147483647 with INT_MAX. now rewrite Hloop.
  - intros fuel r s' H. unfold mathlib_is_prime in H. apply count_call_bind in H.
    change (2147483647 <=? 1) with false in H. change (2147483647 <=? 3) with false in H.
    change ((c_mod 2147483647 2 =? 0) || (c_mod 2147483647 3 =? 0)) with false in H.
    cbv iota in H. apply lift_opt_Some in H. destruct H as [H _].
    eapply is_prime_loop_INT_MAX_only_0. exact H.
Qed.

(** ** Every well-formed call returns *)

Lemma fibonacci_loop_ends (n : Z) (k : nat) :
  n < INT_MAX ->
  forall (fuel : nat) (i a b : Z),
    2 <= i -> i + Z.of_nat k = n + 1 -> (k < fuel)%nat ->
    exists r, loop fuel (fibonacci_body n) (i, a, b) = Some r.
Proof.
  intros Hn. induction k as [|k IH]; intros fuel i a b Hi Hk Hfuel;
    (destruct fuel as [|fuel]; [lia|]); cbn [loop fibonacci_body].
  - rewrite (proj2 (Z.leb_gt i n)) by lia. now exists b.
  - rewrite (proj2 (Z.leb_le i n)) by lia.
    rewrite (wrap32_id (i + 1)) by (int_bounds; lia).
    apply IH; lia.
Qed.

Lemma gcd_loop_ends (m : nat) :
  forall (fuel : nat) (a b : Z),
    Z.abs b < Z.of_nat m -> (m <= fuel)%nat ->
    exists r, loop fuel gcd_body (a, b) = Some r.
Proof.
  induction m as [|m IH]; intros fuel a b Hb Hfuel; [lia|].
  destruct fuel as [|fuel]; [lia|]. cbn [loop gcd_body].
  destruct (Z.eqb_spec b 0) as [->|Hnz]; cbn [negb].
  - now exists a.
  - apply IH; [|lia]. unfold c_mod.
    pose proof (Z.rem_bound_abs a b Hnz). lia.
Qed.

Lemma is_prime_loop_ends (n : Z) (k : nat) :
  n <= INT_MAX -> n mod 6 = 1 \/ n mod 6 = 5 ->
  forall (fuel : nat) (i : Z),
    5 <= i <= n -> i mod 6 = 5 -> n - i < 6 * Z.of_nat k -> (k <= fuel)%nat ->
    exists r, loop fuel (is_prime_body n) i = Some r.
Proof.
  intros Hn Hmod. induction k as [|k IH]; intros fuel i Hi Hi6 Hk Hfuel; [lia|].
  destruct fuel as [|fuel]; [lia|]. cbn [loop]. unfold is_prime_body.
  destruct (wrap32 (i * i) <=? n); [|now exists 1].
  assert (Hi2 : i + 2 <= INT_MAX) by (int_bounds; Z.div_mod_to_equations; lia).
  rewrite (wrap32_id (i + 2)) by (int_bounds; lia).
  destruct (c_mod n i =? 0) eqn:Hd; cbn [orb]; [now exists 0|].
  destruct (c_mod n (i + 2) =? 0) eqn:Hd2; [now exists 0|].
  assert (Hne : i <> n).
  { intros ->. unfold c_mod in Hd. rewrite Z.rem_same in Hd by lia. discriminate. }
  assert (Hne2 : i + 2 <> n).
  { intros <-. unfold c_mod in Hd2. rewrite Z.rem_same in Hd2 by lia. discriminate. }
  assert (Hnext : i + 6 <= n) by (Z.div_mod_to_equations; lia).
  rewrite (wrap32_id (i + 6)) by (int_bounds; lia).
  apply IH; try lia. Z.div_mod_to_equations; lia.
Qed.

Lemma array_sum_loop_ends (l : list Z) (size : Z) (k : nat) :
  size <= Z.of_nat (length l) -> size <= INT_MAX ->
  forall (fuel : nat) (i sum : Z),
    0 <= i -> i + Z.of_nat k = size -> (k < fuel)%nat ->
    exists r, loop fuel (array_sum_body l size) (i, sum) = Some r.
Proof.
  intros Hlen Hint. induction k as [|k IH]; intros fuel i sum Hi Hk Hfuel;
    (destruct fuel as [|fuel]; [lia|]); cbn [loop array_sum_body].
  - rewrite (proj2 (Z.ltb_ge i size)) by lia. now exists sum.
  - rewrite (proj2 (Z.ltb_lt i size)) by lia.
    destruct (array_get_Some l i ltac:(lia)) as (v & -> & _).
    rewrite (wrap32_id (i + 1)) by (int_bounds; lia).
    apply IH; lia.
Qed.

Lemma mathlib_array_sum_returns (array : int_array) (size : Z) (s : LibState) :
  (no_data array size = false -> in_buffer array size) ->
  exists fuel r, mathlib_array_sum fuel array size s = Some (r, counted s).
Proof.
  intros Hwf. unfold mathlib_array_sum.
  destruct (no_data array size) eqn:Hnd.
  - exists O, 0. now apply count_call_bind.
  - destruct (Hwf eq_refl) as [Hlen Hint].
    assert (Hpos : 0 < size).
    { destruct array; [|discriminate]. cbn in Hnd. now apply Z.leb_gt in Hnd. }
    destruct (array_sum_loop_ends (elements array) size (Z.to_nat size) Hlen Hint
                (Datatypes.S (Z.to_nat size)) 0 0) as (r & Hr); try lia.
    exists (Datatypes.S (Z.to_nat size)), r.
    apply count_call_bind. unfold lift_opt. now rewrite Hr.
Qed.

Lemma fmap_returns {A} (f : A -> value) (m : M A) (s : LibState) :
  (exists a s', m s = Some (a, s')) -> exists v s', fmap f m s = Some (v, s').
Proof.
  intros (a & s' & H). exists (f a), s'. apply fmap_Some. now exists a.
Qed.

Lemma mathlib_fibonacci_returns (n : Z) (s : LibState) :
  n < INT_MAX -> exists fuel r, mathlib_fibonacci fuel n s = Some (r, counted s).
Proof.
  intros Hn. unfold mathlib_fibonacci.
  destruct (Z.leb_spec n 0) as [H0|H0].
  { exists O, 0. now apply count_call_bind. }
  destruct (Z.eqb_spec n 1) as [H1|H1].
  { exists O, 1. now apply count_call_bind. }
  destruct (fibonacci_loop_ends n (Z.to_nat (n - 1)) Hn (Z.to_nat n) 2 0 1) as (r & Hr);
    try lia.
  exists (Z.to_nat n), r. apply count_call_bind. unfold lift_opt. now rewrite Hr.
Qed.

Lemma mathlib_gcd_returns (a b : Z) (s : LibState) :
  exists fuel r, mathlib_gcd fuel a b s = Some (r, counted s).
Proof.
  destruct (gcd_loop_ends (Datatypes.S (Z.to_nat (Z.abs (c_abs b))))
              (Datatypes.S (Z.to_nat (Z.abs (c_abs b)))) (c_abs a) (c_abs b))
    as (r & Hr); try lia.
  exists (Datatypes.S (Z.to_nat (Z.abs (c_abs b)))), r.
  unfold mathlib_gcd. apply count_call_bind. unfold lift_opt. now rewrite Hr.
Qed.

Lemma mathlib_is_prime_returns (n : Z) (s : LibState) :
  n <= INT_MAX -> exists fuel r, mathlib_is_prime fuel n s = Some (r, counted s).
Proof.
  intros Hn. unfold mathlib_is_prime.
  destruct (Z.leb_spec n 1) as [H1|H1].
  { exists O, 0. now apply count_call_bind. }
  destruct (Z.leb_spec n 3) as [H3|H3].
  { exists O, 1. now apply count_call_bind. }
  destruct (c_mod n 2 =? 0) eqn:Hd2; cbn [orb].
  { exists O, 0. now apply count_call_bind. }
  destruct (c_mod n 3 =? 0) eqn:Hd3.
  { exists O, 0. now apply count_call_bind. }
  apply c_mod_nonzero_iff in Hd2; [|lia]. apply c_mod_nonzero_iff in Hd3; [|lia].
  assert (Hmod : n mod 6 = 1 \/ n mod 6 = 5).
  { assert (H2 : n mod 2 <> 0) by (intros H; apply Hd2; apply Z.mod_divide; [lia|exact H]).
    assert (H3' : n mod 3 <> 0) by (intros H; apply Hd3; apply Z.mod_divide; [lia|exact H]).
    Z.div_mod_to_equations. lia. }
  assert (H5 : 5 <= n) by (destruct Hmod; Z.div_mod_to_equations; lia).
  destruct (is_prime_loop_ends n (Z.to_nat n) Hn Hmod (Z.to_nat n) 5) as (r & Hr);
    try lia; [reflexivity|].
  exists (Z.to_nat n), r. apply count_call_bind. unfold lift_opt. now rewrite Hr.
Qed.

(** Every call of the interface returns on well-formed arguments, given
    enough fuel. *)
Lemma run_returns (c : call) (s : LibState) :
  well_formed c -> exists fuel v s', run fuel c s = Some (v, s').
Proof.
  destruct c; cbn [well_formed run]; intros Hwf.
  - exists O. apply fmap_returns. now eexists _, _.
  - exists O. apply fmap_returns. now eexists _, _.
  - exists O. apply fmap_returns. now eexists _, _.
  - exists O. apply fmap_returns. unfold mathlib_add.
    match goal with |- context [if ?c then _ else _] => destruct c end;
      eexists _, _; apply count_call_bind; reflexivity.
  - exists O. apply fmap_returns. unfold mathlib_subtract.
    match goal with |- context [if ?c then _ else _] => destruct c end;
      eexists _, _; apply count_call_bind; reflexivity.
  - exists O. apply fmap_returns. unfold mathlib_multiply.
    match goal with |- context [if ?c then _ else _] => destruct c end;
      eexists _, _; apply count_call_bind; reflexivity.
  - exists O. apply fmap_returns. unfold mathlib_divide.
    match goal with |- context [if ?c then _ else _] => destruct c end;
      eexists _, _; apply count_call_bind; reflexivity.
  - exists 20%nat. apply fmap_returns. eexists _, _.
    apply mathlib_factorial_run. lia.
  - destruct (mathlib_fibonacci_returns n s Hwf) as (fuel & r & H).
    exists fuel. apply fmap_returns. now exists r, (counted s).
  - destruct (mathlib_gcd_returns a b s) as (fuel & r & H).
    exists fuel. apply fmap_returns. now exists r, (counted s).
  - destruct (mathlib_is_prime_returns n s Hwf) as (fuel & r & H).
    exists fuel. apply fmap_returns. now exists r, (counted s).
  - destruct (mathlib_array_sum_returns array size s Hwf) as (fuel & r & H).
    exists fuel. apply fmap_returns. now exists r, (counted s).
  - destruct (no_data array size) eqn:Hnd.
    + exists O. apply fmap_returns. eexists _, _. unfold mathlib_array_average.
      apply count_call_bind. rewrite Hnd. reflexivity.
    + destruct (mathlib_array_sum_returns array size (counted s)) as (fuel & r & H);
        [intros _; now apply Hwf|].
      exists fuel. apply fmap_returns. eexists _, _. unfold mathlib_array_average.
      apply count_call_bind. rewrite Hnd. unfold bind. rewrite H. reflexivity.
  - destruct (no_data array size) eqn:Hnd.
    + exists O. apply fmap_returns. eexists _, _. unfold mathlib_array_max.
      apply count_call_bind. rewrite Hnd. reflexivity.
    + destruct array as [l|]; [|discriminate]. destruct (Hwf eq_refl) as [Hlen Hint].
      cbn in Hnd. apply Z.leb_gt in Hnd.
      destruct (mathlib_array_max_run l size Hlen Hint (Z.to_nat size) s Hnd (le_n _))
        as (m & H & _).
      exists (Z.to_nat size). apply fmap_returns. now exists m, (counted s).
  - destruct (no_data array size) eqn:Hnd.
    + exists O. apply fmap_returns. eexists _, _. unfold mathlib_array_min.
      apply count_call_bind. rewrite Hnd. reflexivity.
    + destruct array as [l|]; [|discriminate]. destruct (Hwf eq_refl) as [Hlen Hint].
      cbn in Hnd. apply Z.leb_gt in Hnd.
      destruct (mathlib_array_min_run l size Hlen Hint (Z.to_nat size) s Hnd (le_n _))
        as (m & H & _).
      exists (Z.to_nat size). apply fmap_returns. now exists m, (counted s).
  - exists O. apply fmap_returns. unfold mathlib_apply_operation.
    destruct operation as [f|].
    + destruct (f v (counted s)) as [[r s']|] eqn:Hf; [|now apply Hwf in Hf].
      exists r, s'. now apply count_call_bind.
    + eexists _, _. apply count_call_bind. reflexivity.
  - exists O. apply fmap_returns. now eexists _, _.
  - exists O. apply fmap_returns. now eexists _, _.
  - exists O. apply fmap_returns. eexists _, _. apply mathlib_random_run.
  - exists O. apply fmap_returns. unfold mathlib_point_distance.
    destruct p1, p2; eexists _, _; apply count_call_bind; reflexivity.
Qed.

(** ** The call counter *)

(** C1, as the code has it: while the counter stays within [int] and the
    callback handed to apply_operation leaves the counter alone, a call that
    returns has added [count_delta] to [g_call_count]: nothing for
    version_major and version_minor, two for array_average on a present
    array with positive size (it calls the exported array_sum, which counts
    itself), and one for every other operation; so the counter never
    decreases along a sequence of calls. *)
Theorem call_count_accounting (fuel : nat) (c : call) (cs : list call) (s : LibState) :
  INT_MIN <= g_call_count s ->
  g_call_count s + count_delta_all (c :: cs) <= INT_MAX ->
  Forall callback_keeps_count (c :: cs) ->
  (well_formed c ->
     exists fuel' v s1, run fuel' c s = Some (v, s1) /\
                        g_call_count s1 = g_call_count s + count_delta c) /\
  (forall v s1, run fuel c s = Some (v, s1) ->
     g_call_count s1 = g_call_count s + count_delta c /\
     g_call_count s <= g_call_count s1) /\
  (forall vs s', run_all fuel (c :: cs) s = Some (vs, s') ->
     g_call_count s' = g_call_count s + count_delta_all (c :: cs) /\
     g_call_count s <= g_call_count s') /\
  (count_delta c =
     match c with
     | CallVersionMajor | CallVersionMinor => 0
     | CallArrayAverage (Some _) size => if size <=? 0 then 1 else 2
     | _ => 1
     end).
Proof.
  intros Hlo Hhi Hcb.
  pose proof (count_delta_nonneg c) as Hc.
  pose proof (count_delta_all_nonneg cs) as Hcs.
  pose proof (count_delta_all_nonneg (c :: cs)) as Hall.
  inversion Hcb as [|? ? Hcb1 _]; subst.
  assert (Hhi1 : g_call_count s + count_delta c <= INT_MAX)
    by (cbn [count_delta_all] in Hhi; lia).
  split; [|split; [|split]].
  - intros Hwf. destruct (run_returns c s Hwf) as (fuel' & v & s1 & Hrun).
    exists fuel', v, s1. split; [exact Hrun|].
    now apply (run_count fuel' c s v s1).
  - intros v s1 Hrun.
    rewrite (run_count fuel c s v s1); try assumption; lia.
  - intros vs s' Hrun.
    rewrite (run_all_count fuel (c :: cs) s vs s'); try assumption. lia.
  - destruct c; try reflexivity. destruct array; reflexivity.
Qed.

Lemma call_count_accounting_witness :
  (well_formed CallVersion ->
     exists fuel' v s1, run fuel' CallVersion mathlib_init = Some (v, s1) /\
                        g_call_count s1 = g_call_count mathlib_init + count_delta CallVersion) /\
  (forall v s1, run 30 CallVersion mathlib_init = Some (v, s1) ->
     g_call_count s1 = g_call_count mathlib_init + count_delta CallVersion /\
     g_call_count mathlib_init <= g_call_count s1) /\
  (forall vs s', run_all 30 test_program mathlib_init = Some (vs, s') ->
     g_call_count s' = g_call_count mathlib_init + count_delta_all test_program /\
     g_call_count mathlib_init <= g_call_count s') /\
  count_delta CallVersion = 1.
Proof.
  apply (call_count_accounting 30 CallVersion (tl test_program) mathlib_init).
  - unfold INT_MIN. cbn. lia.
  - unfold INT_MAX. cbn. lia.
  - repeat constructor. cbn. apply pure_callback_keeps_count.
Defined.

(** The test program does return, and its twenty-one calls leave the
    counter at twenty: two calls do not count and one counts twice. *)
Example test_program_count :
  option_map g_call_count (state_of (run_all 30 test_program mathlib_init)) = Some 20.
Proof. vm_compute. reflexivity. Qed.

(** The values test_mathlib.c prints (before its own formatting). *)
Example test_program_values :
  value_of (run_all 30 test_program mathlib_init) =
  Some [ VString "1.0.0"; VInt 1; VInt 0;
         VInt 15; VInt 5; VInt 50; VDouble 2;
         VInt 120; VInt 55; VInt 6; VInt 1; VInt 0;
         VInt 55; VDouble 5.5; VInt 10; VInt 1;
         VInt 49;
         VVoid; VInt 42; VInt 1250496027;
         VDouble 5 ].
Proof. vm_compute. reflexivity. Qed.

(** C1 as stated fails: array_average on the test program's ten-element
    array moves the counter from 0 to 2. *)
Lemma array_average_counts_twice :
  g_call_count mathlib_init = 0 /\
  option_map g_call_count (state_of (mathlib_array_average 11 test_array 10 mathlib_init))
  = Some 2 /\
  2 <> 0 + 1.
Proof. repeat split; try reflexivity. lia. Qed.

(** * Further properties of the library *)

(** ** gcd *)

Lemma gcd_loop_result (fuel : nat) :
  forall a b r, 0 <= a -> 0 <= b ->
                loop fuel gcd_body (a, b) = Some r -> r = Z.gcd a b.
Proof.
  induction fuel as [|fuel IH]; intros a b r Ha Hb H; [discriminate|].
  cbn [loop gcd_body] in H.
  destruct (Z.eqb_spec b 0) as [->|Hnz]; cbn [negb] in H.
  - inversion H; subst. now rewrite Z.gcd_0_r_nonneg.
  - apply IH in H; [|lia|unfold c_mod; apply Z.rem_nonneg; lia].
    subst r. unfold c_mod. rewrite Z.gcd_comm. now rewrite Z.gcd_rem, Z.gcd_comm.
Qed.

(** X1: when neither argument is [INT_MIN], gcd returns the greatest common
    divisor of [a] and [b] (non-negative, with gcd(a, 0) = |a| and
    gcd(0, 0) = 0); |b| + 1 turns of the loop are enough, and no amount of
    fuel gives another value. *)
Theorem gcd_is_greatest_common_divisor (fuel : nat) (a b : Z) (s : LibState) :
  INT_MIN < a <= INT_MAX -> INT_MIN < b <= INT_MAX ->
  ((Z.to_nat (Z.abs b) < fuel)%nat ->
     mathlib_gcd fuel a b s = Some (Z.gcd a b, counted s)) /\
  (forall r s', mathlib_gcd fuel a b s = Some (r, s') -> r = Z.gcd a b) /\
  (b = 0 -> forall r s', mathlib_gcd fuel a b s = Some (r, s') -> r = Z.abs a).
Proof.
  intros Ha Hb.
  assert (Hres : forall r s', mathlib_gcd fuel a b s = Some (r, s') -> r = Z.gcd a b).
  { intros r s' H. unfold mathlib_gcd in H. apply count_call_bind in H.
    apply lift_opt_Some in H. destruct H as [H _].
    rewrite (c_abs_id a Ha), (c_abs_id b Hb) in H.
    apply gcd_loop_result in H; try lia.
    now rewrite Z.gcd_abs_l, Z.gcd_abs_r in H. }
  split; [|split].
  - intros Hfuel.
    destruct (gcd_loop_ends (Datatypes.S (Z.to_nat (Z.abs b))) fuel (c_abs a) (c_abs b))
      as (r & Hr); [rewrite (c_abs_id b Hb); lia|lia|].
    assert (Hrun : mathlib_gcd fuel a b s = Some (r, counted s)).
    { unfold mathlib_gcd. apply count_call_bind. unfold lift_opt. now rewrite Hr. }
    rewrite Hrun. now rewrite (Hres r (counted s) Hrun).
  - exact Hres.
  - intros -> r s' H. rewrite (Hres r s' H). apply Z.gcd_0_r.
Qed.

Lemma gcd_is_greatest_common_divisor_witness :
  mathlib_gcd 19 48 18 mathlib_init = Some (Z.gcd 48 18, counted mathlib_init) /\
  Z.gcd 48 18 = 6.
Proof.
  assert (Ha : INT_MIN < 48 <= INT_MAX) by (unfold INT_MIN, INT_MAX; lia).
  assert (Hb : INT_MIN < 18 <= INT_MAX) by (unfold INT_MIN, INT_MAX; lia).
  destruct (gcd_is_greatest_common_divisor 19 48 18 mathlib_init Ha Hb) as (H & _).
  split; [apply H; cbn; lia|reflexivity].
Defined.

(** ** fibonacci *)

Lemma fib_pair_spec (n : nat) : fib_pair n = (fib n, fib (Datatypes.S n)).
Proof.
  induction n as [|n IH]; [reflexivity|].
  cbn [fib_pair]. rewrite IH. cbn [fib]. f_equal. destruct n; lia.
Qed.

Lemma fib_step (n : nat) : fib (Datatypes.S (Datatypes.S n)) = fib (Datatypes.S n) + fib n.
Proof. reflexivity. Qed.

Lemma fib_nonneg (n : nat) : 0 <= fib n /\ 0 <= fib (Datatypes.S n).
Proof.
  induction n as [|n [IH1 IH2]]; [cbn; lia|].
  split; [assumption|]. rewrite fib_step. lia.
Qed.

Lemma fib_mono (n m : nat) : (n <= m)%nat -> fib n <= fib m.
Proof.
  induction 1 as [|m Hle IH]; [lia|].
  apply Z.le_trans with (fib m); [assumption|].
  destruct m as [|m]; [cbn; lia|].
  rewrite fib_step. pose proof (fib_nonneg m). lia.
Qed.

Lemma pair_eq_fst {A B} (a c : A) (b d : B) : (a, b) = (c, d) -> a = c.
Proof. intros H. now inversion H. Qed.

Lemma fib_46 : fib 46 = 1836311903.
Proof.
  pose proof (fib_pair_spec 46) as H.
  assert (Hc : fib_pair 46 = (1836311903, 2971215073)) by (vm_compute; reflexivity).
  rewrite Hc in H. symmetry. exact (pair_eq_fst _ _ _ _ H).
Qed.

(** The loop of fibonacci from [(i, fib (i-2), fib (i-1))]. *)
Lemma fibonacci_loop (n : Z) (k : nat) :
  n <= 46 ->
  forall (fuel : nat) (j : nat),
    Z.of_nat j + 2 + Z.of_nat k = n + 1 -> (k < fuel)%nat ->
    loop fuel (fibonacci_body n) (Z.of_nat j + 2, fib j, fib (Datatypes.S j))
    = Some (fib (Z.to_nat n)).
Proof.
  intros Hn. induction k as [|k IH]; intros fuel j Hk Hfuel;
    (destruct fuel as [|fuel]; [lia|]); cbn [loop fibonacci_body].
  - rewrite (proj2 (Z.leb_gt (Z.of_nat j + 2) n)) by lia.
    do 2 f_equal. lia.
  - rewrite (proj2 (Z.leb_le (Z.of_nat j + 2) n)) by lia.
    rewrite (wrap32_id (Z.of_nat j + 2 + 1)) by (int_bounds; lia).
    rewrite (Z.add_comm (fib j)), <- fib_step.
    assert (Hb : fib (Datatypes.S (Datatypes.S j)) <= fib 46) by (apply fib_mono; lia).
    rewrite fib_46 in Hb. pose proof (fib_nonneg (Datatypes.S j)) as [_ Hnn].
    rewrite wrap32_id by (int_bounds; lia).
    replace (Z.of_nat j + 2 + 1) with (Z.of_nat (Datatypes.S j) + 2) by lia.
    apply IH; lia.
Qed.

(** X2: for [0 <= n <= 46] fibonacci returns the [n]-th Fibonacci number
    (F0 = 0, F1 = 1, F(k+2) = F(k+1) + F(k)), which is within [int]; for
    [n <= 0] it returns 0. *)
Theorem fibonacci_is_fib (fuel : nat) (n : Z) (s : LibState) :
  (Z.to_nat n <= fuel)%nat ->
  n <= 46 ->
  mathlib_fibonacci fuel n s = Some (fib (Z.to_nat n), counted s) /\
  0 <= fib (Z.to_nat n) <= INT_MAX /\
  (2 <= n -> fib (Z.to_nat n) = fib (Z.to_nat (n - 1)) + fib (Z.to_nat (n - 2))).
Proof.
  intros Hfuel Hn. split; [|split].
  - unfold mathlib_fibonacci. apply count_call_bind.
    destruct (Z.leb_spec n 0) as [H0|H0].
    { replace (Z.to_nat n) with O by lia. reflexivity. }
    destruct (Z.eqb_spec n 1) as [->|H1]; [reflexivity|].
    pose proof (fibonacci_loop n (Z.to_nat (n - 1)) Hn fuel 0 ltac:(lia) ltac:(lia)) as Hloop.
    change (Z.of_nat 0 + 2) with 2 in Hloop.
    change (fib 0) with 0 in Hloop. change (fib 1) with 1 in Hloop.
    unfold lift_opt. now rewrite Hloop.
  - pose proof (fib_nonneg (Z.to_nat n)) as [Hnn _].
    assert (Hb : fib (Z.to_nat n) <= fib 46) by (apply fib_mono; lia).
    rewrite fib_46 in Hb. unfold INT_MAX. lia.
  - intros H2. replace (Z.to_nat n) with (Datatypes.S (Datatypes.S (Z.to_nat (n - 2)))) by lia.
    replace (Z.to_nat (n - 1)) with (Datatypes.S (Z.to_nat (n - 2))) by lia.
    replace (Z.to_nat (Z.of_nat (Datatypes.S (Datatypes.S (Z.to_nat (n - 2)))) - 2))
      with (Z.to_nat (n - 2)) by lia.
    apply fib_step.
Qed.

Lemma fibonacci_is_fib_witness :
  mathlib_fibonacci 10 10 mathlib_init = Some (fib (Z.to_nat 10), counted mathlib_init) /\
  fib (Z.to_nat 10) = 55.
Proof.
  assert (Hf : (Z.to_nat 10 <= 10)%nat) by (cbn; lia).
  assert (Hn : 10 <= 46) by lia.
  destruct (fibonacci_is_fib 10 10 mathlib_init Hf Hn) as (H & _).
  split; [exact H|reflexivity].
Defined.

(** X3: at [n = INT_MAX] the loop test [i <= n] holds for every [int], so
    fibonacci has no outcome whatever the fuel: the call does not return. *)
Theorem fibonacci_INT_MAX_never_returns (fuel : nat) (s : LibState) :
  mathlib_fibonacci fuel INT_MAX s = None /\
  (forall i a b, in_int32 i ->
     exists st, fibonacci_body INT_MAX (i, a, b) = Some (Continue st)).
Proof.
  assert (Hbody : forall i a b, in_int32 i ->
            fibonacci_body INT_MAX (i, a, b)
            = Some (Continue (wrap32 (i + 1), b, wrap32 (a + b)))).
  { intros i a b [_ Hi]. unfold fibonacci_body. now rewrite (proj2 (Z.leb_le i INT_MAX)). }
  split.
  - assert (Hloop : forall f i a b, in_int32 i ->
              loop f (fibonacci_body INT_MAX) (i, a, b) = (None : option Z)).
    { induction f as [|f IH]; intros i a b Hi; [reflexivity|].
      cbn [loop]. rewrite Hbody by assumption. apply IH, wrap32_range. }
    unfold mathlib_fibonacci, bind. rewrite count_call_Some.
    change (INT_MAX <=? 0) with false. change (INT_MAX =? 1) with false. cbv iota.
    unfold lift_opt. rewrite Hloop; [reflexivity|]. int_bounds. lia.
  - intros i a b Hi. eexists. now apply Hbody.
Qed.

(** ** is_prime away from the overflow *)

Lemma mathlib_is_prime_fuel_mono (fuel fuel' : nat) (n : Z) (s : LibState) r s' :
  mathlib_is_prime fuel n s = Some (r, s') -> (fuel <= fuel')%nat ->
  mathlib_is_prime fuel' n s = Some (r, s').
Proof.
  unfold mathlib_is_prime. intros H Hle. apply count_call_bind in H. apply count_call_bind.
  destruct (n <=? 1); [exact H|]. destruct (n <=? 3); [exact H|].
  destruct ((c_mod n 2 =? 0) || (c_mod n 3 =? 0)); [exact H|].
  unfold lift_opt in *.
  destruct (loop fuel (is_prime_body n) 5) as [r0|] eqn:Hloop; [|discriminate].
  now rewrite (loop_fuel_mono _ fuel fuel' 5 r0 Hloop Hle).
Qed.

Lemma prime_decidable (n : Z) : Z.prime n \/ ~ Z.prime n.
Proof.
  destruct (Znumtheory.prime_dec n) as [H|H]; [left|right].
  - now apply Znumtheory.prime_alt.
  - intros Hp. apply H. now apply Znumtheory.prime_alt.
Qed.

(** X4: is_prime returns 0 on every [int] that is not prime (negative
    numbers, 0, 1 and all composites), returns 1 on every prime below
    46337 * 46337 = 2147117569, and whenever it returns 1 its argument is
    prime. *)
Theorem is_prime_sound_and_complete_below_overflow (fuel : nat) (n : Z) (s : LibState) :
  (trial_division_turns <= fuel)%nat ->
  in_int32 n ->
  (~ Z.prime n -> mathlib_is_prime fuel n s = Some (0, counted s)) /\
  (n < 2147117569 -> Z.prime n -> mathlib_is_prime fuel n s = Some (1, counted s)) /\
  (forall fuel' s', mathlib_is_prime fuel' n s = Some (1, s') -> Z.prime n).
Proof.
  intros Hfuel Hint. split; [|split].
  - intros Hnp.
    destruct (is_prime_correct_without_overflow fuel n s Hfuel Hint (or_intror Hnp))
      as [_ H0].
    exact (H0 Hnp).
  - intros Hlt Hp.
    destruct (is_prime_correct_without_overflow fuel n s Hfuel Hint (or_introl Hlt))
      as [H1 _].
    exact (H1 Hp).
  - intros fuel' s' H1.
    destruct (prime_decidable n) as [Hp|Hnp]; [assumption|exfalso].
    assert (Hbig : (trial_division_turns <= Nat.max fuel fuel')%nat) by lia.
    destruct (is_prime_correct_without_overflow _ n s Hbig Hint (or_intror Hnp)) as [_ H0].
    specialize (H0 Hnp).
    apply (mathlib_is_prime_fuel_mono fuel' (Nat.max fuel fuel')) in H1; [|lia].
    rewrite H0 in H1. discriminate.
Qed.

Lemma is_prime_sound_and_complete_below_overflow_witness :
  mathlib_is_prime trial_division_turns 2147395600 mathlib_init
  = Some (0, counted mathlib_init) /\
  mathlib_is_prime trial_division_turns 17 mathlib_init = Some (1, counted mathlib_init).
Proof.
  assert (Hf : (trial_division_turns <= trial_division_turns)%nat) by apply le_n.
  assert (H1 : in_int32 2147395600) by (unfold in_int32, INT_MIN, INT_MAX; lia).
  assert (H2 : in_int32 17) by (unfold in_int32, INT_MIN, INT_MAX; lia).
  destruct (is_prime_sound_and_complete_below_overflow
              trial_division_turns 2147395600 mathlib_init Hf H1) as (Ha & _).
  destruct (is_prime_sound_and_complete_below_overflow
              trial_division_turns 17 mathlib_init Hf H2) as (_ & Hb & _).
  split.
  - apply Ha. intros Hp. apply (Z.not_prime_square 46340). exact Hp.
  - apply Hb; [lia|].
    apply (no_small_divisor_prime 17 5); try lia.
    intros d Hd. apply (no_divisor_from_sound 3 2 17); [lia|reflexivity|lia].
Defined.

(** ** array sum and average *)

Lemma wrap32_add_l (a b : Z) : wrap32 (wrap32 a + b) = wrap32 (a + b).
Proof.
  unfold wrap32. f_equal.
  replace ((a + 2147483648) mod 4294967296 - 2147483648 + b + 2147483648)
    with ((a + 2147483648) mod 4294967296 + b) by lia.
  rewrite Zplus_mod_idemp_l. f_equal. lia.
Qed.

Lemma total_snoc (l : list Z) (v : Z) : total (l ++ [v]) = total l + v.
Proof.
  unfold total. induction l as [|a l IH]; cbn [app fold_right]; [lia|].
  rewrite IH. lia.
Qed.

Lemma array_sum_loop (l : list Z) (size : Z) (k : nat) :
  size <= Z.of_nat (length l) -> size <= INT_MAX ->
  forall (fuel : nat) (i : Z),
    0 <= i -> i + Z.of_nat k = size -> (k < fuel)%nat ->
    loop fuel (array_sum_body l size) (i, wrap32 (total (firstn (Z.to_nat i) l)))
    = Some (wrap32 (total (firstn (Z.to_nat size) l))).
Proof.
  intros Hlen Hint. induction k as [|k IH]; intros fuel i Hi Hk Hfuel;
    (destruct fuel as [|fuel]; [lia|]); cbn [loop array_sum_body].
  - rewrite (proj2 (Z.ltb_ge i size)) by lia. now replace size with i by lia.
  - rewrite (proj2 (Z.ltb_lt i size)) by lia.
    destruct (array_get_Some l i ltac:(lia)) as (v & -> & Hf).
    rewrite (wrap32_id (i + 1)) by (int_bounds; lia).
    rewrite wrap32_add_l, <- total_snoc, <- Hf.
    apply IH; lia.
Qed.

Lemma mathlib_array_sum_run (fuel : nat) (l : list Z) (size : Z) (s : LibState) :
  0 < size <= Z.of_nat (length l) -> size <= INT_MAX -> (Z.to_nat size < fuel)%nat ->
  mathlib_array_sum fuel (Some l) size s
  = Some (wrap32 (total (firstn (Z.to_nat size) l)), counted s).
Proof.
  intros [Hpos Hlen] Hint Hfuel. unfold mathlib_array_sum. apply count_call_bind.
  rewrite no_data_false by assumption. cbn [elements].
  pose proof (array_sum_loop l size (Z.to_nat size) Hlen Hint fuel 0) as Hloop.
  change (wrap32 (total (firstn (Z.to_nat 0) l))) with 0 in Hloop.
  unfold lift_opt. rewrite Hloop; [reflexivity|lia|lia|lia].
Qed.

(** X5: on [size > 0] elements of the caller's buffer, array sum returns
    their sum reduced to [int]: the sum itself whenever it is representable,
    and otherwise the value wrapped modulo 2^32 (there is no overflow
    guard). *)
Theorem array_sum_is_total (fuel : nat) (l : list Z) (size : Z) (s : LibState) :
  0 < size <= Z.of_nat (length l) -> size <= INT_MAX -> (Z.to_nat size < fuel)%nat ->
  mathlib_array_sum fuel (Some l) size s
  = Some (wrap32 (total (firstn (Z.to_nat size) l)), counted s) /\
  (in_int32 (total (firstn (Z.to_nat size) l)) ->
   value_of (mathlib_array_sum fuel (Some l) size s)
   = Some (total (firstn (Z.to_nat size) l))).
Proof.
  intros Hsize Hint Hfuel.
  rewrite (mathlib_array_sum_run fuel l size s Hsize Hint Hfuel).
  split; [reflexivity|]. intros Hr. cbn [value_of option_map fst]. now rewrite wrap32_id.
Qed.

Lemma array_sum_is_total_witness :
  mathlib_array_sum 3 (Some [2147483647; 1; 5]) 2 mathlib_init
  = Some (wrap32 (total (firstn (Z.to_nat 2) [2147483647; 1; 5])), counted mathlib_init) /\
  wrap32 (total (firstn (Z.to_nat 2) [2147483647; 1; 5])) = -2147483648.
Proof.
  split; [|reflexivity].
  apply (array_sum_is_total 3 [2147483647; 1; 5] 2 mathlib_init).
  - cbn. lia.
  - unfold INT_MAX. lia.
  - cbn. lia.
Defined.

(** X6: on [size > 0] elements of the caller's buffer, array average
    divides the [int] sum of array sum (wrapped if the true sum is not
    representable) by [size], both converted to double, and the call counts
    twice. *)
Theorem array_average_of_int_sum (fuel : nat) (l : list Z) (size : Z) (s : LibState) :
  0 < size <= Z.of_nat (length l) -> size <= INT_MAX -> (Z.to_nat size < fuel)%nat ->
  exists sum,
    mathlib_array_sum fuel (Some l) size (counted s) = Some (sum, counted (counted s)) /\
    sum = wrap32 (total (firstn (Z.to_nat size) l)) /\
    mathlib_array_average fuel (Some l) size s
    = Some (PrimFloat.div (double_of_int sum) (double_of_int size), counted (counted s)).
Proof.
  intros Hsize Hint Hfuel. eexists. split; [|split; [reflexivity|]].
  - apply mathlib_array_sum_run; assumption.
  - unfold mathlib_array_average. apply count_call_bind.
    rewrite no_data_false by lia. unfold bind.
    rewrite (mathlib_array_sum_run fuel l size (counted s) Hsize Hint Hfuel). reflexivity.
Qed.

Lemma array_average_of_int_sum_witness :
  exists sum,
    mathlib_array_sum 3 (Some [2147483647; 1]) 2 (counted mathlib_init)
    = Some (sum, counted (counted mathlib_init)) /\
    sum = wrap32 (total (firstn (Z.to_nat 2) [2147483647; 1])) /\
    mathlib_array_average 3 (Some [2147483647; 1]) 2 mathlib_init
    = Some (PrimFloat.div (double_of_int sum) (double_of_int 2),
            counted (counted mathlib_init)).
Proof.
  apply (array_average_of_int_sum 3 [2147483647; 1] 2 mathlib_init).
  - cbn. lia.
  - unfold INT_MAX. lia.
  - cbn. lia.
Defined.

(** The average of [INT_MAX] and 1 comes out as -2^30: the sum wrapped. *)
Example array_average_wrapped :
  value_of (mathlib_array_average 3 (Some [2147483647; 1]) 2 mathlib_init)
  = Some (-1073741824)%float.
Proof. vm_compute. reflexivity. Qed.

(** ** The generator, further *)

Lemma seeded_outputs (seed : Z) (n : nat) (s : LibState) :
  value_of ((mathlib_set_global_seed seed ;; repeat_call n mathlib_random) s)
  = Some (lcg_outputs seed n).
Proof.
  unfold bind at 1. unfold mathlib_set_global_seed, bind, count_call, put_seed.
  rewrite repeat_random_outputs. reflexivity.
Qed.

Lemma lcg_next_congruent (v w : Z) :
  v mod 2147483648 = w mod 2147483648 -> lcg_next v = lcg_next w.
Proof.
  intros H. unfold lcg_next.
  rewrite <- (Zplus_mod_idemp_l (v * 1103515245)), <- (Zplus_mod_idemp_l (w * 1103515245)).
  rewrite <- (Zmult_mod_idemp_l v), <- (Zmult_mod_idemp_l w). now rewrite H.
Qed.

Lemma lcg_next_parity (seed : Z) : lcg_next seed mod 2 = (seed + 1) mod 2.
Proof.
  unfold lcg_next. rewrite Z.mod_mod_divide by (exists 1073741824; reflexivity).
  Z.div_mod_to_equations. lia.
Qed.

Lemma random_facts (s : LibState) :
  exists r s',
    mathlib_random s = Some (r, s') /\
    g_random_seed s' = lcg_next (g_random_seed s) /\
    0 <= r < RAND_MAX /\
    0 <= g_random_seed s' < 2147483648 /\
    (g_random_seed s' < RAND_MAX -> r = g_random_seed s') /\
    (g_random_seed s' = RAND_MAX -> r = 0).
Proof.
  eexists _, _. split; [apply mathlib_random_run|].
  cbn [g_random_seed].
  assert (Hr : 0 <= lcg_next (g_random_seed s) < 2147483648)
    by (unfold lcg_next; apply Z.mod_pos_bound; lia).
  split; [reflexivity|]. split; [apply Z.mod_pos_bound; reflexivity|].
  split; [exact Hr|]. split.
  - intros H. apply Z.mod_small. lia.
  - intros ->. reflexivity.
Qed.

(** X7: random() never returns a negative value or [RAND_MAX] itself: its
    result lies in [0, RAND_MAX), the stored seed lies in [0, 2^31), and the
    result is the stored seed except that the seed 2^31 - 1 is returned
    as 0. *)
Theorem random_output_range (s : LibState) :
  exists r s',
    mathlib_random s = Some (r, s') /\
    0 <= r < RAND_MAX /\
    0 <= g_random_seed s' < 2147483648 /\
    (g_random_seed s' < RAND_MAX -> r = g_random_seed s') /\
    (g_random_seed s' = RAND_MAX -> r = 0).
Proof.
  destruct (random_facts s) as (r & s' & H & _ & Hr & Hs & Hlt & Heq).
  exists r, s'. repeat split; try assumption; lia.
Qed.

(** X8: every random() flips the lowest bit of the stored seed (multiplier
    and increment are odd), so two consecutive non-zero results never have
    the same parity. *)
Theorem random_low_bit_alternates (s : LibState) :
  exists r1 r2 s1 s2,
    mathlib_random s = Some (r1, s1) /\
    mathlib_random s1 = Some (r2, s2) /\
    g_random_seed s1 mod 2 = (g_random_seed s + 1) mod 2 /\
    g_random_seed s2 mod 2 = g_random_seed s mod 2 /\
    (r1 <> 0 -> r2 <> 0 -> r1 mod 2 <> r2 mod 2).
Proof.
  destruct (random_facts s) as (r1 & s1 & H1 & Es1 & Hr1 & Hs1 & Hlt1 & Heq1).
  destruct (random_facts s1) as (r2 & s2 & H2 & Es2 & Hr2 & Hs2 & Hlt2 & Heq2).
  exists r1, r2, s1, s2.
  assert (P1 : g_random_seed s1 mod 2 = (g_random_seed s + 1) mod 2)
    by (rewrite Es1; apply lcg_next_parity).
  assert (P2 : g_random_seed s2 mod 2 = (g_random_seed s1 + 1) mod 2)
    by (rewrite Es2; apply lcg_next_parity).
  split; [exact H1|]. split; [exact H2|]. split; [exact P1|]. split.
  - clear - P1 P2. Z.div_mod_to_equations. lia.
  - intros N1 N2.
    assert (R1 : r1 = g_random_seed s1).
    { apply Hlt1. unfold RAND_MAX in *.
      destruct (Z.eq_dec (g_random_seed s1) 2147483647) as [E|E]; [|lia].
      exfalso. apply N1. now apply Heq1. }
    assert (R2 : r2 = g_random_seed s2).
    { apply Hlt2. unfold RAND_MAX in *.
      destruct (Z.eq_dec (g_random_seed s2) 2147483647) as [E|E]; [|lia].
      exfalso. apply N2. now apply Heq2. }
    rewrite R1, R2. clear - P1 P2. Z.div_mod_to_equations. lia.
Qed.

(** X9: the generator ignores the top bit of the seed: seeds that agree
    modulo 2^31 (such as [v] and [v + 2^31]) give the same random()
    results after set_seed. *)
Theorem random_ignores_top_seed_bit (v w : Z) (n : nat) (s1 s2 : LibState) :
  v mod 2147483648 = w mod 2147483648 ->
  value_of ((mathlib_set_global_seed v ;; repeat_call n mathlib_random) s1)
  = value_of ((mathlib_set_global_seed w ;; repeat_call n mathlib_random) s2).
Proof.
  intros H. rewrite !seeded_outputs. f_equal.
  destruct n as [|n]; [reflexivity|].
  cbn [lcg_outputs]. now rewrite (lcg_next_congruent v w H).
Qed.

Lemma random_ignores_top_seed_bit_witness :
  value_of ((mathlib_set_global_seed 42 ;; repeat_call 5 mathlib_random) mathlib_init)
  = value_of ((mathlib_set_global_seed 2147483690 ;; repeat_call 5 mathlib_random)
                mathlib_init).
Proof.
  apply (random_ignores_top_seed_bit 42 2147483690 5 mathlib_init mathlib_init).
  reflexivity.
Defined.

(** ** Algebra of the checked operations *)

Lemma mathlib_multiply_run (a b : Z) (s : LibState) :
  INT_MIN < a <= INT_MAX -> INT_MIN < b <= INT_MAX ->
  mathlib_multiply a b s
  = Some ((if INT_MAX <? Z.abs (a * b) then 0 else a * b), counted s).
Proof.
  intros Ha Hb. unfold mathlib_multiply. apply count_call_bind.
  destruct (Z.eqb_spec a 0) as [->|Hnz]; cbn [negb andb].
  - reflexivity.
  - rewrite multiply_check by assumption.
    destruct (Z.ltb_spec INT_MAX (Z.abs (a * b))); [reflexivity|].
    unfold ret. rewrite wrap32_id by (int_bounds; lia). reflexivity.
Qed.

(** X10: add is commutative on [int] arguments, overflow sentinel
    included, and 0 is neutral for add and subtract; subtract(a, a) is 0. *)
Theorem add_commutative_zero_neutral (a b : Z) (s : LibState) :
  in_int32 a -> in_int32 b ->
  mathlib_add a b s = mathlib_add b a s /\
  value_of (mathlib_add a 0 s) = Some a /\
  value_of (mathlib_add 0 a s) = Some a /\
  value_of (mathlib_subtract a 0 s) = Some a /\
  value_of (mathlib_subtract a a s) = Some 0.
Proof.
  intros Ha Hb.
  assert (H0 : in_int32 0) by (int_bounds; lia).
  rewrite (mathlib_add_run a b s Ha Hb), (mathlib_add_run b a s Hb Ha).
  rewrite (mathlib_add_run a 0 s Ha H0), (mathlib_add_run 0 a s H0 Ha).
  rewrite (mathlib_subtract_run a 0 s Ha H0), (mathlib_subtract_run a a s Ha Ha).
  rewrite (Z.add_comm b a), Z.add_0_r, Z.add_0_l, Z.sub_0_r, Z.sub_diag.
  cbn [value_of option_map fst].
  destruct (in_int32b_spec a) as [_|N]; [|contradiction].
  repeat split.
Qed.

Lemma add_commutative_zero_neutral_witness :
  mathlib_add INT_MAX 1 mathlib_init = mathlib_add 1 INT_MAX mathlib_init /\
  value_of (mathlib_subtract INT_MIN INT_MIN mathlib_init) = Some 0.
Proof.
  assert (Ha : in_int32 INT_MAX) by (unfold in_int32, INT_MIN, INT_MAX; lia).
  assert (Hb : in_int32 1) by (unfold in_int32, INT_MIN, INT_MAX; lia).
  assert (Hc : in_int32 INT_MIN) by (unfold in_int32, INT_MIN, INT_MAX; lia).
  destruct (add_commutative_zero_neutral INT_MAX 1 mathlib_init Ha Hb) as (H1 & _).
  destruct (add_commutative_zero_neutral INT_MIN INT_MIN mathlib_init Hc Hc)
    as (_ & _ & _ & _ & H2).
  split; assumption.
Defined.

(** X11: when [a + b] is representable, subtract undoes add:
    subtract(add(a, b), b) is [a]; when [a - b] is representable, add undoes
    subtract: add(subtract(a, b), b) is [a]. *)
Theorem add_subtract_round_trip (a b : Z) (s : LibState) :
  in_int32 a -> in_int32 b ->
  (in_int32 (a + b) ->
   value_of ((c <- mathlib_add a b ;; mathlib_subtract c b) s) = Some a) /\
  (in_int32 (a - b) ->
   value_of ((c <- mathlib_subtract a b ;; mathlib_add c b) s) = Some a).
Proof.
  intros Ha Hb. split; intros Hr; unfold bind.
  - rewrite (mathlib_add_run a b s Ha Hb).
    destruct (in_int32b_spec (a + b)) as [_|N]; [|contradiction].
    rewrite (mathlib_subtract_run (a + b) b (counted s) Hr Hb).
    replace (a + b - b) with a by lia.
    destruct (in_int32b_spec a) as [_|N]; [reflexivity|contradiction].
  - rewrite (mathlib_subtract_run a b s Ha Hb).
    destruct (in_int32b_spec (a - b)) as [_|N]; [|contradiction].
    rewrite (mathlib_add_run (a - b) b (counted s) Hr Hb).
    replace (a - b + b) with a by lia.
    destruct (in_int32b_spec a) as [_|N]; [reflexivity|contradiction].
Qed.

Lemma add_subtract_round_trip_witness :
  value_of ((c <- mathlib_add INT_MAX (-1) ;; mathlib_subtract c (-1)) mathlib_init)
  = Some INT_MAX /\
  value_of ((c <- mathlib_subtract INT_MIN (-1) ;; mathlib_add c (-1)) mathlib_init)
  = Some INT_MIN.
Proof.
  assert (Ha : in_int32 INT_MAX) by (unfold in_int32, INT_MIN, INT_MAX; lia).
  assert (Hb : in_int32 (-1)) by (unfold in_int32, INT_MIN, INT_MAX; lia).
  assert (Hc : in_int32 INT_MIN) by (unfold in_int32, INT_MIN, INT_MAX; lia).
  destruct (add_subtract_round_trip INT_MAX (-1) mathlib_init Ha Hb) as (H1 & _).
  destruct (add_subtract_round_trip INT_MIN (-1) mathlib_init Hc Hb) as (_ & H2).
  split.
  - apply H1. unfold in_int32, INT_MIN, INT_MAX; lia.
  - apply H2. unfold in_int32, INT_MIN, INT_MAX; lia.
Defined.

(** X12: when neither argument is [INT_MIN], multiply is commutative, has
    1 as unit and 0 as absorbing element, negates with -1, and returns
    either 0 or the exact product, never a wrapped one. *)
Theorem multiply_commutative_exact (a b : Z) (s : LibState) :
  INT_MIN < a <= INT_MAX -> INT_MIN < b <= INT_MAX ->
  mathlib_multiply a b s = mathlib_multiply b a s /\
  value_of (mathlib_multiply a 1 s) = Some a /\
  value_of (mathlib_multiply a 0 s) = Some 0 /\
  value_of (mathlib_multiply a (-1) s) = Some (- a) /\
  (exists r, value_of (mathlib_multiply a b s) = Some r /\ (r = 0 \/ r = a * b)).
Proof.
  intros Ha Hb.
  assert (H1 : INT_MIN < 1 <= INT_MAX) by (int_bounds; lia).
  assert (H0 : INT_MIN < 0 <= INT_MAX) by (int_bounds; lia).
  assert (Hm : INT_MIN < -1 <= INT_MAX) by (int_bounds; lia).
  rewrite (mathlib_multiply_run a b s Ha Hb), (mathlib_multiply_run b a s Hb Ha).
  rewrite (mathlib_multiply_run a 1 s Ha H1), (mathlib_multiply_run a 0 s Ha H0).
  rewrite (mathlib_multiply_run a (-1) s Ha Hm).
  rewrite (Z.mul_comm b a), Z.mul_1_r, Z.mul_0_r.
  replace (a * -1) with (- a) by lia.
  cbn [value_of option_map fst].
  rewrite (proj2 (Z.ltb_ge INT_MAX (Z.abs a))) by (int_bounds; lia).
  rewrite (proj2 (Z.ltb_ge INT_MAX (Z.abs (- a)))) by (int_bounds; lia).
  repeat split.
  destruct (INT_MAX <? Z.abs (a * b)); eexists; split; try reflexivity; auto.
Qed.

Lemma multiply_commutative_exact_witness :
  mathlib_multiply 65536 (-32768) mathlib_init = mathlib_multiply (-32768) 65536 mathlib_init /\
  value_of (mathlib_multiply INT_MAX (-1) mathlib_init) = Some (- INT_MAX).
Proof.
  assert (Ha : INT_MIN < 65536 <= INT_MAX) by (unfold INT_MIN, INT_MAX; lia).
  assert (Hb : INT_MIN < -32768 <= INT_MAX) by (unfold INT_MIN, INT_MAX; lia).
  assert (Hc : INT_MIN < INT_MAX <= INT_MAX) by (unfold INT_MIN, INT_MAX; lia).
  destruct (multiply_commutative_exact 65536 (-32768) mathlib_init Ha Hb) as (H1 & _).
  destruct (multiply_commutative_exact INT_MAX (-32768) mathlib_init Hc Hb)
    as (_ & _ & _ & H2 & _).
  split; assumption.
Defined.

(** ** factorial, further *)

(** X13: below the cap factorial satisfies its recurrence:
    factorial(n + 1) = (n + 1) * factorial(n) for [0 <= n < 20], every value
    being positive and at most 20!. *)
Theorem factorial_recurrence (fuel : nat) (n : Z) (s : LibState) :
  (20 <= fuel)%nat ->
  0 <= n < 20 ->
  exists f,
    value_of (mathlib_factorial fuel n s) = Some f /\
    value_of (mathlib_factorial fuel (n + 1) s) = Some ((n + 1) * f) /\
    1 <= f /\ (n + 1) * f <= 2432902008176640000.
Proof.
  intros Hfuel Hn. rewrite !mathlib_factorial_run by assumption.
  cbn [value_of option_map fst].
  rewrite !(proj2 (Z.ltb_ge _ 0)) by lia.
  destruct (Z.eq_dec n 0) as [->|Hn0].
  { exists 1. repeat split; vm_compute; discriminate. }
  assert (Hpos : 1 <= product_2_to n)
    by (unfold product_2_to; apply product_from_pos; lia).
  assert (Hrec : product_2_to (n + 1) = (n + 1) * product_2_to n).
  { unfold product_2_to.
    replace (Z.to_nat (n + 1 - 1)) with (Z.to_nat (n - 1) + 1)%nat by lia.
    rewrite product_from_app. cbn [product_from].
    rewrite Z2Nat.id by lia. ring. }
  assert (Hcap : product_2_to (n + 1) <= 2432902008176640000).
  { unfold product_2_to.
    apply Z.le_trans with (product_from 2 19); [|vm_compute; discriminate].
    apply product_from_mono; lia. }
  rewrite (Z.min_l n 20), (Z.min_l (n + 1) 20) by lia.
  rewrite (proj2 (Z.leb_gt (n + 1) 1)) by lia.
  destruct (Z.leb_spec n 1) as [H1|H1].
  - replace n with 1 by lia. exists 1. repeat split; vm_compute; discriminate.
  - exists (product_2_to n). rewrite Hrec. repeat split; try assumption.
    now rewrite <- Hrec.
Qed.

Lemma factorial_recurrence_witness :
  exists f,
    value_of (mathlib_factorial 20 19 mathlib_init) = Some f /\
    value_of (mathlib_factorial 20 (19 + 1) mathlib_init) = Some ((19 + 1) * f) /\
    1 <= f /\ (19 + 1) * f <= 2432902008176640000.
Proof.
  apply (factorial_recurrence 20 19 mathlib_init); lia.
Defined.

(** ** divide *)

Lemma eqb_zero_iff (b : float) :
  PrimFloat.eqb b 0%float = true <-> b = 0%float \/ b = (-0)%float.
Proof.
  split.
  - intros H. rewrite eqb_spec in H.
    assert (Hz : exists sg, Prim2SF b = S754_zero sg).
    { change (Prim2SF 0%float) with (S754_zero false) in H.
      unfold SFeqb, SFcompare in H.
      destruct (Prim2SF b) as [sg|sg| |sg m e]; try discriminate.
      - now exists sg.
      - destruct sg; discriminate.
      - destruct sg; discriminate. }
    destruct Hz as (sg & Hz).
    rewrite <- (SF2Prim_Prim2SF b), Hz. destruct sg; [right|left]; reflexivity.
  - intros [-> | ->]; reflexivity.
Qed.

(** X14: divide returns the sentinel +0.0 exactly when the divisor is a
    zero of either sign, whatever the dividend (NaN and infinities
    included); on every other divisor, NaN included, it returns the
    IEEE-754 quotient. *)
Theorem divide_zero_guard (a b : float) (s : LibState) :
  (b = 0%float \/ b = (-0)%float ->
   mathlib_divide a b s = Some (0%float, counted s)) /\
  (b <> 0%float -> b <> (-0)%float ->
   mathlib_divide a b s = Some (PrimFloat.div a b, counted s)).
Proof.
  unfold mathlib_divide. split.
  - intros H. apply eqb_zero_iff in H. apply count_call_bind. now rewrite H.
  - intros H1 H2. apply count_call_bind.
    destruct (PrimFloat.eqb b 0%float) eqn:E; [|reflexivity].
    apply eqb_zero_iff in E. destruct E; contradiction.
Qed.

(** ** apply_operation *)

(** X15: apply_operation returns [value] itself when the callback is
    absent and the callback's result otherwise; with the test program's
    square_callback it returns [value * value] for |value| <= 46340, and a
    callback that calls back into the library is counted as a call of its
    own. *)
Theorem apply_operation_dispatch (value : Z) (s : LibState) :
  mathlib_apply_operation value None s = Some (value, counted s) /\
  (forall f : Z -> Z,
     mathlib_apply_operation value (Some (pure_callback f)) s = Some (f value, counted s)) /\
  (-46340 <= value <= 46340 ->
   mathlib_apply_operation value (Some square_callback) s
   = Some (value * value, counted s)) /\
  (in_int32 value -> value < INT_MAX ->
   mathlib_apply_operation value (Some (fun v => mathlib_add v 1)) s
   = Some (value + 1, counted (counted s))).
Proof.
  unfold mathlib_apply_operation. repeat split.
  - intros Hv. apply count_call_bind. unfold square_callback, pure_callback, ret.
    rewrite wrap32_id by (int_bounds; nia). reflexivity.
  - intros Hv Hlt. apply count_call_bind.
    rewrite mathlib_add_run by (try assumption; int_bounds; lia).
    destruct (in_int32b_spec (value + 1)) as [_|N]; [reflexivity|].
    exfalso. apply N. int_bounds. lia.
Qed.

(** ** point_distance *)

Lemma binary_round_aux_sign (mx ex : Z) (lx : location) :
  SFltb (binary_round_aux prec emax false mx ex lx) (S754_zero false) = false.
Proof.
  unfold binary_round_aux.
  destruct (shr_fexp prec emax mx ex lx) as [mrs' e'].
  destruct (shr_fexp prec emax _ e' loc_Exact) as [mrs'' e''].
  destruct (shr_m mrs''); try reflexivity.
  destruct (e'' <=? emax - prec); reflexivity.
Qed.

Lemma sqrt_not_negative (t : float) : PrimFloat.ltb (PrimFloat.sqrt t) 0%float = false.
Proof.
  rewrite ltb_spec, sqrt_spec. change (Prim2SF 0%float) with (S754_zero false).
  unfold SF64sqrt, SFsqrt.
  destruct (Prim2SF t) as [sg|sg| |sg m e]; try reflexivity.
  - destruct sg; reflexivity.
  - destruct sg; [reflexivity|].
    destruct (SFsqrt_core_binary prec emax (Z.pos m) e) as [[mz ez] lz].
    apply binary_round_aux_sign.
Qed.

(** X16: point_distance returns the sentinel -1.0 when either point is
    absent; for two present points the result is never below zero (it is
    non-negative or NaN), so it is never the sentinel. *)
Theorem point_distance_sentinel_unambiguous (p1 p2 : option MathPoint) (s : LibState) :
  (p1 = None \/ p2 = None ->
   mathlib_point_distance p1 p2 s = Some ((-1)%float, counted s)) /\
  (forall q1 q2, p1 = Some q1 -> p2 = Some q2 ->
     exists r, mathlib_point_distance p1 p2 s = Some (r, counted s) /\
               PrimFloat.ltb r 0%float = false /\
               r <> (-1)%float).
Proof.
  unfold mathlib_point_distance. split.
  - intros [-> | ->]; apply count_call_bind; [reflexivity|].
    destruct p1; reflexivity.
  - intros q1 q2 -> ->. eexists. split; [apply count_call_bind; reflexivity|].
    split; [apply sqrt_not_negative|].
    intros E. pose proof (sqrt_not_negative
      (PrimFloat.add
         (PrimFloat.mul (PrimFloat.sub (x q2) (x q1)) (PrimFloat.sub (x q2) (x q1)))
         (PrimFloat.mul (PrimFloat.sub (y q2) (y q1)) (PrimFloat.sub (y q2) (y q1))))) as H.
    rewrite E in H. discriminate.
Qed.

Lemma point_distance_sentinel_unambiguous_witness :
  mathlib_point_distance None (Some (mkMathPoint 3 4)) mathlib_init
  = Some ((-1)%float, counted mathlib_init) /\
  mathlib_point_distance (Some (mkMathPoint 0 0)) (Some (mkMathPoint 3 4)) mathlib_init
  = Some (5%float, counted mathlib_init).
Proof.
  destruct (point_distance_sentinel_unambiguous None (Some (mkMathPoint 3 4)) mathlib_init)
    as (H & _).
  split; [apply H; now left|reflexivity].
Defined.

(** ** Saving and restoring the generator *)

(** X17: the generator's state can be saved with get_seed and restored with
    set_seed: whatever happened in between, the draws after
    set_seed(saved) are the draws that followed the get_seed. *)
Theorem seed_save_restore (n : nat) (s later : LibState) :
  exists saved s1,
    mathlib_get_global_seed s = Some (saved, s1) /\
    value_of ((mathlib_set_global_seed saved ;; repeat_call n mathlib_random) later)
    = value_of (repeat_call n mathlib_random s1) /\
    value_of (repeat_call n mathlib_random s1) = value_of (repeat_call n mathlib_random s).
Proof.
  exists (g_random_seed s), (counted s). split; [reflexivity|].
  rewrite seeded_outputs, !repeat_random_outputs. split; reflexivity.
Qed.

(** ** Sum, minimum and maximum together *)

Lemma total_bounds (l : list Z) (lo hi : Z) :
  (forall v, In v l -> lo <= v <= hi) ->
  Z.of_nat (length l) * lo <= total l <= Z.of_nat (length l) * hi.
Proof.
  unfold total. induction l as [|a l IH]; intros H; [cbn; lia|].
  cbn [length fold_right].
  assert (Ha : lo <= a <= hi) by (apply H; now left).
  assert (Hl : forall v, In v l -> lo <= v <= hi) by (intros v Hv; apply H; now right).
  specialize (IH Hl). lia.
Qed.

(** X18: on the same [size > 0] elements of the caller's buffer, array min
    is at most array max, and the true sum of the elements lies between
    [size * min] and [size * max]; when both bounds are representable,
    array sum returns the true sum. *)
Theorem array_min_max_bound_sum (fuel : nat) (l : list Z) (size : Z) (s : LibState) :
  0 < size <= Z.of_nat (length l) -> size <= INT_MAX -> (Z.to_nat size < fuel)%nat ->
  exists mn mx,
    value_of (mathlib_array_min fuel (Some l) size s) = Some mn /\
    value_of (mathlib_array_max fuel (Some l) size s) = Some mx /\
    mn <= mx /\
    size * mn <= total (firstn (Z.to_nat size) l) <= size * mx /\
    (INT_MIN <= size * mn -> size * mx <= INT_MAX ->
     value_of (mathlib_array_sum fuel (Some l) size s)
     = Some (total (firstn (Z.to_nat size) l))).
Proof.
  intros [Hpos Hlen] Hint Hfuel.
  destruct (mathlib_array_min_run l size Hlen Hint fuel s Hpos ltac:(lia))
    as (mn & Hmn & Hin_mn & Hlb).
  destruct (mathlib_array_max_run l size Hlen Hint fuel s Hpos ltac:(lia))
    as (mx & Hmx & Hin_mx & Hub).
  exists mn, mx. rewrite Hmn, Hmx. cbn [value_of option_map fst].
  assert (Hle : mn <= mx) by (apply Hub; exact Hin_mn).
  assert (Hsum : size * mn <= total (firstn (Z.to_nat size) l) <= size * mx).
  { pose proof (total_bounds (firstn (Z.to_nat size) l) mn mx) as Hb.
    rewrite length_firstn, Nat.min_l in Hb by lia.
    rewrite Z2Nat.id in Hb by lia. apply Hb.
    intros v Hv. split; [now apply Hlb|now apply Hub]. }
  repeat split; try assumption; try apply Hsum.
  intros H1 H2.
  rewrite (mathlib_array_sum_run fuel l size s (conj Hpos Hlen) Hint Hfuel).
  cbn [value_of option_map fst]. rewrite wrap32_id; [reflexivity|].
  unfold in_int32. lia.
Qed.

Lemma array_min_max_bound_sum_witness :
  exists mn mx,
    value_of (mathlib_array_min 11 test_array 10 mathlib_init) = Some mn /\
    value_of (mathlib_array_max 11 test_array 10 mathlib_init) = Some mx /\
    mn <= mx /\
    10 * mn <= total (firstn (Z.to_nat 10) (elements test_array)) <= 10 * mx /\
    (INT_MIN <= 10 * mn -> 10 * mx <= INT_MAX ->
     value_of (mathlib_array_sum 11 test_array 10 mathlib_init)
     = Some (total (firstn (Z.to_nat 10) (elements test_array)))).
Proof.
  apply (array_min_max_bound_sum 11 (elements test_array) 10 mathlib_init).
  - cbn. lia.
  - unfold INT_MAX. lia.
  - cbn. lia.
Defined.
